(** * Sideloading questionnaire: the resumable-session engine

    A shallow embedding of [QuestionnaireManager] from
    [sideloading_questionnaire.py] and the properties of its session
    engine: loading the question list, deriving the resume point from
    the answer log, asking questions and appending answers.

    Conventions of the embedding.
    - A Python [str] is the list of its Unicode code points.
    - A Python [int] is a [Z].
    - Text files hold decoded text; reading applies the universal
      newline translation of [open(..., 'r')].  File operations are
      taken to succeed (no permission, disk or decoding failure), and
      the interpreter's configurable limit on the length of an integer
      literal is not modelled.
    - The console is a list of pending events; when it runs dry a call
      to [input] never returns, which the result [Stuck] records.
    - [print] calls are kept as a transcript of events carrying the
      interpolated values. *)

From Stdlib Require Import List ZArith NArith Bool Lia Ascii String Permutation.
From Stdlib Require Import DecimalPos DecimalN DecimalZ.
Import ListNotations.

Set Implicit Arguments.

(** ** Text *)

Module Text.

Local Open Scope N_scope.

Definition char := N.
Definition str := list char.

(** A Python string literal made of ASCII characters. *)
Definition lit (s : string) : str :=
  map (fun a => N_of_ascii a) (list_ascii_of_string s).

Fixpoint str_eqb (a b : str) : bool :=
  match a, b with
  | [], [] => true
  | x :: a', y :: b' => N.eqb x y && str_eqb a' b'
  | _, _ => false
  end.

Definition between (lo hi c : N) : bool := N.leb lo c && N.leb c hi.

(** [str.isspace] on one character: the code points Python treats as
    whitespace (bidirectional type WS, B or S, or category Zs). *)
Definition isspace (c : char) : bool :=
  between 9 13 c || between 28 32 c || N.eqb c 133 || N.eqb c 160
  || N.eqb c 5760 || between 8192 8202 c || N.eqb c 8232 || N.eqb c 8233
  || N.eqb c 8239 || N.eqb c 8287 || N.eqb c 12288.

Section Strip.
Variable drop : char -> bool.

Fixpoint lstrip_by (s : str) : str :=
  match s with
  | [] => []
  | c :: t => if drop c then lstrip_by t else s
  end.

Definition rstrip_by (s : str) : str := rev (lstrip_by (rev s)).

Definition strip_by (s : str) : str := rstrip_by (lstrip_by s).
End Strip.

(** [s.strip()] *)
Definition strip : str -> str := strip_by isspace.

(** ** Searching and splitting *)

Fixpoint starts_with (p s : str) : bool :=
  match p, s with
  | [], _ => true
  | x :: p', y :: s' => N.eqb x y && starts_with p' s'
  | _ :: _, [] => false
  end.

(** First occurrence of [sep] in [s]: the text before it and the text
    after it. *)
Fixpoint cut (sep s : str) : option (str * str) :=
  if starts_with sep s then Some ([], skipn (List.length sep) s)
  else match s with
       | [] => None
       | c :: t =>
           match cut sep t with
           | Some (before, after) => Some (c :: before, after)
           | None => None
           end
       end.

(** [sep in s] *)
Definition contains (sep s : str) : bool :=
  match cut sep s with Some _ => true | None => false end.

(** [s.split(sep, maxsplit)] for a non-empty separator. *)
Fixpoint split (sep : str) (maxsplit : nat) (s : str) : list str :=
  match maxsplit with
  | O => [s]
  | S m =>
      match cut sep s with
      | None => [s]
      | Some (before, after) => before :: split sep m after
      end
  end.

(** ** Case mapping

    [upper_char] is Python's full upper-case mapping on the code points
    below 256 and on every other code point whose upper-case form is
    made of ASCII letters only (dotless i, long s, the Latin ligatures);
    the remaining code points are left as they are.  The program only
    compares upper-cased text with the ASCII words QUIT and SKIP, and
    those comparisons come out as in Python: a code point outside the
    table yields a non-ASCII character there too. *)
Definition upper_char (c : char) : str :=
  if between 97 122 c then [c - 32]
  else if N.eqb c 181 then [924]
  else if N.eqb c 223 then [83; 83]
  else if between 224 254 c && negb (N.eqb c 247) then [c - 32]
  else if N.eqb c 255 then [376]
  else if N.eqb c 305 then [73]
  else if N.eqb c 383 then [83]
  else if N.eqb c 64256 then [70; 70]
  else if N.eqb c 64257 then [70; 73]
  else if N.eqb c 64258 then [70; 76]
  else if N.eqb c 64259 then [70; 70; 73]
  else if N.eqb c 64260 then [70; 70; 76]
  else if between 64261 64262 c then [83; 84]
  else [c].

(** [s.upper()] *)
Definition upper (s : str) : str := flat_map upper_char s.

(** ** Digits and integers *)

(** First code points of the runs of ten decimal digits (category Nd). *)
Definition decimal_bases : list N :=
  [48; 1632; 1776; 1984; 2406; 2534; 2662; 2790; 2918; 3046; 3174; 3302;
   3430; 3558; 3664; 3792; 3872; 4160; 4240; 6112; 6160; 6470; 6608; 6784;
   6800; 6992; 7088; 7232; 7248; 42528; 43216; 43264; 43472; 43504; 43600;
   44016; 65296; 66720; 68912; 69734; 69872; 69942; 70096; 70384; 70736;
   70864; 71248; 71360; 71472; 71904; 72016; 72784; 73040; 73120; 92768;
   92864; 93008; 120782; 120792; 120802; 120812; 120822; 123200; 123632;
   125264; 130032].

Fixpoint decimal_in (bases : list N) (c : char) : option N :=
  match bases with
  | [] => None
  | b :: rest => if between b (b + 9) c then Some (c - b) else decimal_in rest c
  end.

(** Decimal value of a character, if it is a decimal digit. *)
Definition to_decimal (c : char) : option N := decimal_in decimal_bases c.

(** Ranges of the characters with a digit value ([str.isdigit]): the
    decimal digits and the superscript, subscript, circled and similar
    digits. *)
Definition digit_ranges : list (N * N) :=
  [(48, 57); (178, 179); (185, 185); (1632, 1641); (1776, 1785);
   (1984, 1993); (2406, 2415); (2534, 2543); (2662, 2671); (2790, 2799);
   (2918, 2927); (3046, 3055); (3174, 3183); (3302, 3311); (3430, 3439);
   (3558, 3567); (3664, 3673); (3792, 3801); (3872, 3881); (4160, 4169);
   (4240, 4249); (4969, 4977); (6112, 6121); (6160, 6169); (6470, 6479);
   (6608, 6618); (6784, 6793); (6800, 6809); (6992, 7001); (7088, 7097);
   (7232, 7241); (7248, 7257); (8304, 8304); (8308, 8313); (8320, 8329);
   (9312, 9320); (9332, 9340); (9352, 9360); (9450, 9450); (9461, 9469);
   (9471, 9471); (10102, 10110); (10112, 10120); (10122, 10130);
   (42528, 42537); (43216, 43225); (43264, 43273); (43472, 43481);
   (43504, 43513); (43600, 43609); (44016, 44025); (65296, 65305);
   (66720, 66729); (68160, 68163); (68912, 68921); (69216, 69224);
   (69714, 69722); (69734, 69743); (69872, 69881); (69942, 69951);
   (70096, 70105); (70384, 70393); (70736, 70745); (70864, 70873);
   (71248, 71257); (71360, 71369); (71472, 71481); (71904, 71913);
   (72016, 72025); (72784, 72793); (73040, 73049); (73120, 73129);
   (92768, 92777); (92864, 92873); (93008, 93017); (120782, 120831);
   (123200, 123209); (123632, 123641); (125264, 125273); (127232, 127242);
   (130032, 130041)].

Definition isdigit_char (c : char) : bool :=
  existsb (fun r => between (fst r) (snd r) c) digit_ranges.

(** [s.isdigit()]: every character is a digit and there is at least one. *)
Definition isdigit (s : str) : bool :=
  match s with
  | [] => false
  | _ => forallb isdigit_char s
  end.

(** Whitespace that [int] tolerates around a number: Python's whitespace
    without the four ASCII separators 28..31. *)
Definition int_space (c : char) : bool := isspace c && negb (between 28 31 c).

(** The digits of an integer literal: decimal digits, single
    underscores allowed between two digits. *)
Fixpoint int_digits (after_digit : bool) (acc : N) (s : str) : option N :=
  match s with
  | [] => if after_digit then Some acc else None
  | c :: t =>
      if N.eqb c 95 then
        if after_digit then int_digits false acc t else None
      else
        match to_decimal c with
        | Some d => int_digits true (10 * acc + d) t
        | None => None
        end
  end.

(** [int(s)]; [None] stands for [ValueError]. *)
Definition int (s : str) : option Z :=
  let text := strip_by int_space s in
  match text with
  | [] => None
  | sign :: body =>
      if N.eqb sign 45 then
        option_map (fun n => Z.opp (Z.of_N n)) (int_digits false 0 body)
      else if N.eqb sign 43 then
        option_map Z.of_N (int_digits false 0 body)
      else option_map Z.of_N (int_digits false 0 text)
  end.

Fixpoint uint_digits (d : Decimal.uint) : str :=
  match d with
  | Decimal.Nil => []
  | Decimal.D0 r => 48 :: uint_digits r
  | Decimal.D1 r => 49 :: uint_digits r
  | Decimal.D2 r => 50 :: uint_digits r
  | Decimal.D3 r => 51 :: uint_digits r
  | Decimal.D4 r => 52 :: uint_digits r
  | Decimal.D5 r => 53 :: uint_digits r
  | Decimal.D6 r => 54 :: uint_digits r
  | Decimal.D7 r => 55 :: uint_digits r
  | Decimal.D8 r => 56 :: uint_digits r
  | Decimal.D9 r => 57 :: uint_digits r
  end%N.

(** [str(z)], the decimal text an f-string puts for an [int]. *)
Definition str_of_int (z : Z) : str :=
  match Z.to_int z with
  | Decimal.Pos d => uint_digits d
  | Decimal.Neg d => 45%N :: uint_digits d
  end.

(** ** Lines of a text file *)

(** Universal newlines: CR LF and a lone CR are read as LF. *)
Fixpoint translate_newlines (s : str) : str :=
  match s with
  | [] => []
  | c :: t =>
      if N.eqb c 13 then
        match t with
        | d :: t' => if N.eqb d 10 then translate_newlines t
                     else 10%N :: translate_newlines t
        | [] => [10%N]
        end
      else c :: translate_newlines t
  end.

(** The lines of a text, each with its terminating LF when it has one. *)
Fixpoint lines_of (s : str) : list str :=
  match s with
  | [] => []
  | c :: t =>
      if N.eqb c 10 then [c] :: lines_of t
      else match lines_of t with
           | [] => [[c]]
           | l :: ls => (c :: l) :: ls
           end
  end.

(** [file.readlines()], and the lines a [for line in file] loop sees. *)
Definition readlines (content : str) : list str :=
  lines_of (translate_newlines content).

End Text.

(** ** The questionnaire manager *)

Module Questionnaire.

Import Text.

(** What the user does at the console: enters a line, or interrupts. *)
Inductive console :=
| Line (raw : str)
| CtrlC.

(** What the program prints, with the values it interpolates. *)
Inductive event :=
| QuestionsFileNotFound (path : str)
| QuestionsLoaded (count : nat)
| NoQuestionsLoaded
| ResumingSession (last_answered : Z)
| StartingNewSession (total : nat)
| Instructions (answers_path : str)
| EnterPrompt
| QuestionShown (number : Z) (total : nat) (text : str)
| AnswerPrompt
| SessionSaved (number : Z)
| PleaseProvideAnswer
| AnswerSaved
| SaveError
| SessionInterrupted (number : Z)
| AskError
| QuestionnaireCompleted (total : nat).

Record world := World {
  files : str -> option str;
  stdin : list console;
  stdout : list event
}.

Definition print (e : event) (w : world) : world :=
  World (files w) (stdin w) (stdout w ++ [e]).

Definition with_stdin (pending : list console) (w : world) : world :=
  World (files w) pending (stdout w).

(** Opening [path] in append mode and writing [text]. *)
Definition append_file (path text : str) (w : world) : world :=
  let content := match files w path with
                 | Some old => old ++ text
                 | None => text
                 end in
  World (fun p => if str_eqb p path then Some content else files w p)
        (stdin w) (stdout w).

Inductive exn := IndexError | KeyboardInterrupt | TypeError.

(** How a call ends: it returns, raises, or waits for input for ever. *)
Inductive result (A : Type) :=
| Ret (a : A)
| Raise (e : exn)
| Stuck.
Arguments Raise {A} e.
Arguments Stuck {A}.

Record manager := Manager {
  current_language : option str;
  questions : list str;
  answers_file_path : option str;
  questions_file_path : option str
}.

(** [__init__] *)
Definition init : manager := Manager None [] None None.

(** [xs[i]], with Python's negative indices; [None] is [IndexError]. *)
Definition getitem {A : Type} (xs : list A) (i : Z) : option A :=
  let n := Z.of_nat (List.length xs) in
  let j := if (i <? 0)%Z then (i + n)%Z else i in
  if ((0 <=? j) && (j <? n))%Z then nth_error xs (Z.to_nat j) else None.

(** [range(start, stop)] *)
Definition range (start stop : Z) : list Z :=
  map (fun k => (start + Z.of_nat k)%Z) (seq 0 (Z.to_nat (stop - start))).

Definition truthy (s : str) : bool :=
  match s with [] => false | _ => true end.

(** An optional string as an f-string shows it. *)
Definition format_option (o : option str) : str :=
  match o with Some s => s | None => lit "None" end.

(** [load_questions]: [False] when the file does not exist.  Its
    [except] clause answers a failure of the file system or of the
    decoding, which the embedding leaves out. *)
Definition load_questions (m : manager) (language_suffix : str) (w : world)
  : bool * manager * world :=
  let path := lit "600Q_" ++ language_suffix ++ lit ".txt" in
  let m := Manager (current_language m) (questions m) (answers_file_path m)
                   (Some path) in
  match files w path with
  | None => (false, m, print (QuestionsFileNotFound path) w)
  | Some content =>
      let loaded :=
        map strip (filter (fun line => truthy (strip line)) (readlines content)) in
      (true,
       Manager (current_language m) loaded (answers_file_path m)
               (questions_file_path m),
       print (QuestionsLoaded (List.length loaded)) w)
  end.

(** One turn of the loop over the lines of the answers file. *)
Definition scan_line (last_id : Z) (line : str) : Z :=
  let line := strip line in
  if truthy line && contains (lit ";") line then
    let parts := split (lit ";") 2 line in
    if (3 <=? List.length parts)%nat then
      match int (nth 0 parts []) with
      | Some question_id => Z.max last_id question_id
      | None => last_id
      end
    else last_id
  else last_id.

Definition scan_lines (lines : list str) : Z := fold_left scan_line lines 0%Z.

(** [get_last_answered_question].  With no path set,
    [os.path.exists(None)] raises.  The inner [except ValueError] is
    the [None] of [int] in [scan_line]; the outer [except] answers a
    read failure, which the embedding leaves out. *)
Definition get_last_answered_question (m : manager) (w : world) : result Z :=
  match answers_file_path m with
  | None => Raise TypeError
  | Some path =>
      match files w path with
      | None => Ret 0%Z
      | Some content => Ret (scan_lines (readlines content))
      end
  end.

(** The line [f"{question_id};{question};{answer}\n"]. *)
Definition record_line (question_id : Z) (question answer : str) : str :=
  str_of_int question_id ++ lit ";" ++ question ++ lit ";" ++ answer ++ [10%N].

(** [save_answer]: appends the line; with no path set, [open(None)]
    raises inside the [try] and the error is printed. *)
Definition save_answer (m : manager) (question_id : Z) (question answer : str)
    (w : world) : world :=
  match answers_file_path m with
  | Some path => append_file path (record_line question_id question answer) w
  | None => print SaveError w
  end.

(** The text shown for a stored question: a leading number and
    [". "] are dropped. *)
Definition display_text (question_text : str) : str :=
  if contains (lit ". ") question_text
     && isdigit (nth 0 (split (lit ". ") 1 question_text) [])
  then nth 1 (split (lit ". ") 1 question_text) []
  else question_text.

(** The [while True] loop of [ask_question], one turn per console
    event.  [save] is the end of the [try] block; were the second
    [self.questions[question_index]] to fail, [except Exception] would
    print and the loop go on. *)
Fixpoint answer_loop (m : manager) (question_index : Z)
    (pending : list console) (w : world) : result bool * world :=
  let question_id := question_index in
  let w := print AnswerPrompt w in
  match pending with
  | [] => (Stuck, with_stdin [] w)
  | CtrlC :: rest =>
      (Ret false,
       print (SessionInterrupted (question_id + 1)) (with_stdin rest w))
  | Line raw :: rest =>
      let w := with_stdin rest w in
      let answer := strip raw in
      let save answer :=
        match getitem (questions m) question_index with
        | Some question =>
            (Ret true,
             print AnswerSaved (save_answer m question_id question answer w))
        | None => answer_loop m question_index rest (print AskError w)
        end in
      if str_eqb (upper answer) (lit "QUIT") then
        (Ret false, print (SessionSaved (question_id + 1)) w)
      else if str_eqb (upper answer) (lit "SKIP") then
        save (lit "[SKIPPED]")
      else if negb (truthy answer) then
        answer_loop m question_index rest (print PleaseProvideAnswer w)
      else save answer
  end.

Definition ask_question (m : manager) (question_index : Z) (w : world)
  : result bool * world :=
  let question_id := question_index in
  match getitem (questions m) question_index with
  | None => (Raise IndexError, w)
  | Some question_text =>
      let w := print (QuestionShown (question_id + 1)
                        (List.length (questions m))
                        (display_text question_text)) w in
      answer_loop m question_index (stdin w) w
  end.

(** The [for i in range(...)] loop of the session, with its [break]. *)
Fixpoint ask_each (m : manager) (indices : list Z) (w : world)
  : result unit * world :=
  match indices with
  | [] => (Ret tt, w)
  | i :: rest =>
      match ask_question m i w with
      | (Ret true, w') => ask_each m rest w'
      | (Ret false, w') => (Ret tt, w')
      | (Raise e, w') => (Raise e, w')
      | (Stuck, w') => (Stuck, w')
      end
  end.

(** The file name [f"600A_{self.current_language}.txt"]. *)
Definition answers_path (m : manager) : str :=
  lit "600A_" ++ format_option (current_language m) ++ lit ".txt".

(** The assignment [self.answers_file_path = path]. *)
Definition set_answers_file_path (path : str) (m : manager) : manager :=
  Manager (current_language m) (questions m) (Some path)
          (questions_file_path m).

(** The end of [start_questionnaire_session]: the loop over the
    questions that remain and the closing message. *)
Definition ask_remaining (m : manager) (start_question : Z) (w : world)
  : result unit * world :=
  let total := List.length (questions m) in
  match ask_each m (range start_question (Z.of_nat total)) w with
  | (Ret _, w) =>
      (Ret tt,
       if (start_question <? Z.of_nat total)%Z
       then print (QuestionnaireCompleted total) w
       else w)
  | (Raise e, w) => (Raise e, w)
  | (Stuck, w) => (Stuck, w)
  end.

Definition start_questionnaire_session (m : manager) (w : world)
  : result unit * manager * world :=
  if negb (match questions m with [] => false | _ => true end) then
    (Ret tt, m, print NoQuestionsLoaded w)
  else
    let path := answers_path m in
    let m := set_answers_file_path path m in
    match get_last_answered_question m w with
    | Raise e => (Raise e, m, w)
    | Stuck => (Stuck, m, w)
    | Ret last_answered =>
        let start_question := last_answered in
        let total := List.length (questions m) in
        let w := if (0 <? last_answered)%Z
                 then print (ResumingSession last_answered) w
                 else print (StartingNewSession total) w in
        let w := print EnterPrompt (print (Instructions path) w) in
        match stdin w with
        | [] => (Stuck, m, w)
        | CtrlC :: rest => (Raise KeyboardInterrupt, m, with_stdin rest w)
        | Line _ :: rest =>
            let (r, w) := ask_remaining m start_question (with_stdin rest w) in
            (r, m, w)
        end
    end.

End Questionnaire.

(** ** Vocabulary of the specification

    The notions the prose specification uses to describe the answer
    log, written independently of the program: fields of a line, blank
    lines, the index a line records.  The theorems compare the program
    with them. *)

Module Reading.

Import Text Questionnaire.
Local Open Scope N_scope.

(** Number of separators [;] in a line. *)
Fixpoint count_sep (s : str) : nat :=
  match s with
  | [] => 0%nat
  | c :: t => ((if N.eqb c 59 then 1 else 0) + count_sep t)%nat
  end.

(** The text before the first separator. *)
Fixpoint first_field (s : str) : str :=
  match s with
  | [] => []
  | c :: t => if N.eqb c 59 then [] else c :: first_field t
  end.

(** The text after the first separator. *)
Fixpoint after_sep (s : str) : str :=
  match s with
  | [] => []
  | c :: t => if N.eqb c 59 then t else after_sep t
  end.

(** A line that is empty or made of whitespace only. *)
Definition blank (line : str) : bool := forallb isspace line.

(** The index a log line contributes when a record needs [seps]
    separators at least: none for a blank line, a line with fewer
    separators, or a first field that is not an integer. *)
Definition index_with (seps : nat) (line : str) : option Z :=
  if blank line then None
  else if (count_sep (strip line) <? seps)%nat then None
  else int (first_field (strip line)).

(** A record has its three fields: two separators at least. *)
Definition record_index : str -> option Z := index_with 2.

(** The reading "a line that has a separator is a record". *)
Definition claimed_index : str -> option Z := index_with 1.

Definition indices_by (index_of : str -> option Z) (lines : list str) : list Z :=
  flat_map (fun line => match index_of line with
                        | Some i => [i]
                        | None => []
                        end) lines.

(** The greatest of the indices, and 0 when there is none. *)
Definition claimed_offset (lines : list str) : Z :=
  match indices_by claimed_index lines with
  | [] => 0%Z
  | i :: rest => fold_right Z.max i rest
  end.

(** No line break inside: neither LF nor CR. *)
Definition line_free (s : str) : Prop := ~ In 10 s /\ ~ In 13 s.

(** Console input as [input] delivers it: lines without line breaks. *)
Definition console_ok (pending : list console) : Prop :=
  Forall (fun e => match e with
                   | Line raw => line_free raw
                   | CtrlC => True
                   end) pending.

(** The question indices a transcript shows, in order. *)
Definition asked (events : list event) : list Z :=
  flat_map (fun e => match e with
                     | QuestionShown number _ _ => [(number - 1)%Z]
                     | _ => []
                     end) events.

(** The two messages by which [ask_question] reports a stop. *)
Definition is_stop (e : event) : bool :=
  match e with
  | SessionSaved _ | SessionInterrupted _ => true
  | _ => false
  end.

(** The lines of the file at [path], none when the file is absent. *)
Definition log_lines (w : world) (path : str) : list str :=
  match files w path with
  | Some content => readlines content
  | None => []
  end.

(** [s] is the upper-case ASCII word [word] in some letter case: each
    character is the letter of [word] or its lower-case form. *)
Definition any_case (word s : str) : Prop :=
  Forall2 (fun c d => d = c \/ d = c + 32) word s.

Definition upper_letters (word : str) : Prop :=
  Forall (fun c => 65 <= c <= 90) word.

(** An ASCII digit. *)
Definition is_ascii_digit (c : char) : bool := between 48 57 c.

(** The answer that goes into the record for a console line: the
    trimmed line, or the sentinel when that is SKIP in any case. *)
Definition recorded_answer (raw : str) : str :=
  if str_eqb (upper (strip raw)) (lit "SKIP") then lit "[SKIPPED]"
  else strip raw.

(** The prompts printed while [blanks] empty lines are entered and the
    next line is awaited. *)
Definition prompts_for (blanks : list str) : list event :=
  List.concat (map (fun _ => [AnswerPrompt; PleaseProvideAnswer]) blanks)
  ++ [AnswerPrompt].

(** A record as [ask_question] writes it for the question list [qs]:
    the index of one of the questions, that question's stored text,
    and an answer without line breaks. *)
Definition session_record (qs : list str) (r : Z * str * str) : Prop :=
  let '(i, q, a) := r in
  (0 <= i)%Z /\ getitem qs i = Some q /\ line_free a.

Definition render (r : Z * str * str) : str :=
  let '(i, q, a) := r in record_line i q a.

(** The log holds nothing but such records (or does not exist yet). *)
Definition written_by_sessions (qs : list str) (log : option str) : Prop :=
  match log with
  | None => True
  | Some content =>
      exists records, Forall (session_record qs) records
                      /\ content = List.concat (map render records)
  end.

(** The worlds reached from a world without answers file by running
    sessions of the manager [m], each on console input of its own
    taken among the inputs [allowed]. *)
Inductive reachable_on (allowed : list console -> Prop) (m : manager)
  : world -> Prop :=
| reach_fresh (w : world) :
    files w (answers_path m) = None -> reachable_on allowed m w
| reach_session (w w' : world) (pending : list console)
    (r : result unit) (m' : manager) :
    reachable_on allowed m w -> allowed pending ->
    start_questionnaire_session m (with_stdin pending w) = (r, m', w') ->
    reachable_on allowed m w'.

(** The worlds the program reaches, whatever is entered at the
    console; a line entered may hold a carriage return. *)
Definition reachable (m : manager) : world -> Prop :=
  reachable_on (fun _ => True) m.

End Reading.

(** ** Sample data *)

Module Examples.

Import Text Questionnaire.

(** Three questions with their legacy numbers, language [ingles]. *)
Definition three_questions : manager :=
  Manager (Some (lit "ingles")) [lit "1. A?"; lit "2. B?"; lit "3. C?"]
          None None.

(** The same manager once a session has set the path of its log. *)
Definition three_questions_in_session : manager :=
  set_answers_file_path (answers_path three_questions) three_questions.

(** A text file made of the given lines. *)
Definition text_of (lines : list str) : str :=
  List.concat (map (fun line => line ++ [10%N]) lines).

(** A file system with one file. *)
Definition one_file (path content : str) : str -> option str :=
  fun p => if str_eqb p path then Some content else None.

Definition no_file : str -> option str := fun _ => None.

(** A world where the log of [three_questions] has the given lines. *)
Definition logged (lines : list str) (pending : list console) : world :=
  World (one_file (answers_path three_questions) (text_of lines)) pending [].

Definition fresh (pending : list console) : world :=
  World no_file pending [].

(** The world after a first session on [three_questions] in which the
    answer to the first question holds a carriage return, followed by
    QUIT. *)
Definition after_answer_with_cr : world :=
  snd (start_questionnaire_session three_questions
         (fresh [Line [];
                 Line (lit "x" ++ [13%N] ++ lit "99;a;b");
                 Line (lit "quit")])).

End Examples.

(** ** The language menu and the entry point *)

Module Shell.

Import Text Questionnaire.
Local Open Scope N_scope.

(** [AVAILABLE_LANGUAGES], in the order of the dictionary: English
    name and file suffix. *)
Definition AVAILABLE_LANGUAGES : list (str * str) :=
  [(lit "spanish", lit "espa" ++ [241] ++ lit "ol");
   (lit "english", lit "ingles");
   (lit "german", lit "aleman");
   (lit "chinese", lit "chino");
   (lit "french", lit "frances");
   (lit "greek", lit "griego");
   (lit "hungarian", lit "hungaro");
   (lit "italian", lit "italiano");
   (lit "japanese", lit "japones");
   (lit "polish", lit "polaco");
   (lit "portuguese", lit "portugues");
   (lit "russian", lit "ruso")].

(** [s.title()] on ASCII text, which is what the program applies it
    to: a letter after a letter is put in lower case, any other letter
    in upper case.  Characters beyond ASCII are taken as uncased. *)
Fixpoint title_from (after_letter : bool) (s : str) : str :=
  match s with
  | [] => []
  | c :: t =>
      if between 97 122 c then
        (if after_letter then c else c - 32) :: title_from true t
      else if between 65 90 c then
        (if after_letter then c + 32 else c) :: title_from true t
      else c :: title_from false t
  end.

Definition title (s : str) : str := title_from false s.

(** What the menu and the entry point print. *)
Inductive menu_event :=
| Welcome
| LanguagesHeader
| LanguageOption (idx : nat) (name : str)
| LanguagesFooter
| ChoicePrompt
| LanguageSelected (name : str)
| LanguageNotAvailable (english_name : str)
| InvalidChoice
| EnterValidNumber
| FailedToLoad
| Goodbye
| UnexpectedError (e : exn).

(** [os.path.exists(f"600Q_{file_suffix}.txt")] *)
Definition questions_file_exists (w : world) (file_suffix : str) : bool :=
  match files w (lit "600Q_" ++ file_suffix ++ lit ".txt") with
  | Some _ => true
  | None => false
  end.

(** [enumerate(xs, start)] *)
Definition enumerate {A : Type} (start : nat) (xs : list A) : list (nat * A) :=
  combine (seq start (List.length xs)) xs.

Definition display_available_languages (w : world) : list menu_event :=
  [LanguagesHeader]
  ++ flat_map (fun entry =>
                 let '(idx, (english_name, file_suffix)) := entry in
                 if questions_file_exists w file_suffix
                 then [LanguageOption idx (title english_name)]
                 else [])
              (enumerate 1 AVAILABLE_LANGUAGES)
  ++ [LanguagesFooter].

(** The assignment [self.current_language = file_suffix]. *)
Definition set_current_language (file_suffix : str) (m : manager) : manager :=
  Manager (Some file_suffix) (questions m) (answers_file_path m)
          (questions_file_path m).

(** The [while True] loop of [get_language_choice], one turn per
    console event; [printed] is what the menu has printed so far.
    Only [ValueError] is caught: an interrupt leaves the function. *)
Fixpoint choice_loop (m : manager) (pending : list console) (w : world)
    (printed : list menu_event)
  : result str * manager * world * list menu_event :=
  let printed := printed ++ display_available_languages w ++ [ChoicePrompt] in
  match pending with
  | [] => (Stuck, m, with_stdin [] w, printed)
  | CtrlC :: rest => (Raise KeyboardInterrupt, m, with_stdin rest w, printed)
  | Line raw :: rest =>
      let w := with_stdin rest w in
      let choice := strip raw in
      match int choice with
      | None => choice_loop m rest w (printed ++ [EnterValidNumber])
      | Some choice_num =>
          let available_langs := AVAILABLE_LANGUAGES in
          if ((1 <=? choice_num)
              && (choice_num <=? Z.of_nat (List.length available_langs)))%Z
          then
            match getitem available_langs (choice_num - 1) with
            | None => (Raise IndexError, m, w, printed)
            | Some (english_name, file_suffix) =>
                if questions_file_exists w file_suffix then
                  (Ret file_suffix, set_current_language file_suffix m, w,
                   printed ++ [LanguageSelected (title english_name)])
                else
                  choice_loop m rest w
                    (printed ++ [LanguageNotAvailable english_name])
            end
          else choice_loop m rest w (printed ++ [InvalidChoice])
      end
  end.

Definition get_language_choice (m : manager) (w : world)
  : result str * manager * world * list menu_event :=
  choice_loop m (stdin w) w [].

(** One line of the output of the process: from the menu and the entry
    point, or from the session engine. *)
Inductive output :=
| Menu (e : menu_event)
| Engine (e : event).

(** How the process ends: with an exit status, or never. *)
Inductive ending :=
| ExitCode (code : Z)
| Waiting.

(** [main]: the process on a file system and the console input to
    come.  [sys.exit(1)] raises [SystemExit], which [except Exception]
    does not catch. *)
Definition main (fs : str -> option str) (pending : list console)
  : ending * world * list output :=
  let manager := init in
  let welcome := [Menu Welcome] in
  match get_language_choice manager (World fs pending []) with
  | (Ret language_suffix, manager, w, printed) =>
      let shown := welcome ++ map Menu printed in
      match load_questions manager language_suffix w with
      | (false, _, w) =>
          (ExitCode 1, w, shown ++ map Engine (stdout w) ++ [Menu FailedToLoad])
      | (true, manager, w) =>
          match start_questionnaire_session manager w with
          | (Ret _, _, w) => (ExitCode 0, w, shown ++ map Engine (stdout w))
          | (Raise KeyboardInterrupt, _, w) =>
              (ExitCode 0, w, shown ++ map Engine (stdout w) ++ [Menu Goodbye])
          | (Raise e, _, w) =>
              (ExitCode 1, w,
               shown ++ map Engine (stdout w) ++ [Menu (UnexpectedError e)])
          | (Stuck, _, w) => (Waiting, w, shown ++ map Engine (stdout w))
          end
      end
  | (Raise KeyboardInterrupt, _, w, printed) =>
      (ExitCode 0, w, welcome ++ map Menu printed ++ [Menu Goodbye])
  | (Raise e, _, w, printed) =>
      (ExitCode 1, w, welcome ++ map Menu printed ++ [Menu (UnexpectedError e)])
  | (Stuck, _, w, printed) => (Waiting, w, welcome ++ map Menu printed)
  end.

End Shell.

(** ** Vocabulary for the effect of a session on the log *)

Module Ledger.

Import Text Questionnaire Reading.

(** The content of the file at [path], empty when it does not exist. *)
Definition log_text (w : world) (path : str) : str :=
  match files w path with
  | Some content => content
  | None => []
  end.

(** The indices of a list of records. *)
Definition record_indices (records : list (Z * str * str)) : list Z :=
  map (fun r => fst (fst r)) records.

(** The file at [path] once [records] have been appended to it: as it
    was when there is none, since the file is then not even opened. *)
Definition log_after (w : world) (path : str)
    (records : list (Z * str * str)) : option str :=
  match records with
  | [] => files w path
  | _ => Some (log_text w path ++ List.concat (map render records))
  end.

(** A record made by a session on the question list [qs] from the
    console input [pending]: the question is the one at the index, the
    answer is what [ask_question] keeps of some line entered. *)
Definition record_from (qs : list str) (pending : list console)
    (r : Z * str * str) : Prop :=
  let '(i, q, a) := r in
  getitem qs i = Some q
  /\ exists raw, In (Line raw) pending /\ a = recorded_answer raw.

End Ledger.

(** ** Vocabulary for the output of the process *)

Module Alarms.

Import Text Questionnaire Shell.

(** The two messages that go with exit status 1. *)
Definition is_failure (o : output) : bool :=
  match o with
  | Menu FailedToLoad | Menu (UnexpectedError _) => true
  | _ => false
  end.

(** A message of the menu that is not a failure message. *)
Definition menu_message (e : menu_event) : Prop :=
  is_failure (Menu e) = false.

(** The name of the log for a file suffix. *)
Definition log_name (file_suffix : str) : str :=
  lit "600A_" ++ file_suffix ++ lit ".txt".

(** The name of the questions file for a file suffix. *)
Definition questions_name (file_suffix : str) : str :=
  lit "600Q_" ++ file_suffix ++ lit ".txt".

End Alarms.

(** ** Line endings *)

Module Newlines.

Import Text.

(** The three ways a line of a text file may end: LF, CR LF, CR. *)
Definition line_terminator (term : str) : Prop :=
  term = [10%N] \/ term = [13%N; 10%N] \/ term = [13%N].

(** The text of the lines [ls], each followed by [term]. *)
Definition terminated (term : str) (ls : list str) : str :=
  List.concat (map (fun l => l ++ term) ls).

End Newlines.

(** * Properties *)

Unset Implicit Arguments.

Module TextFacts.

Import Text.
Local Open Scope N_scope.

Lemma str_eqb_refl (a : str) : str_eqb a a = true.
Proof.
  induction a as [|x a IH]; simpl; [reflexivity|].
  now rewrite N.eqb_refl, IH.
Qed.

Lemma str_eqb_eq (a b : str) : str_eqb a b = true <-> a = b.
Proof.
  split.
  - revert b; induction a as [|x a IH]; intros [|y b] H; simpl in H;
      try discriminate; [reflexivity|].
    apply andb_true_iff in H as [Hx Hab].
    apply N.eqb_eq in Hx. now rewrite Hx, (IH b Hab).
  - intros ->. apply str_eqb_refl.
Qed.

Lemma str_eqb_neq (a b : str) : str_eqb a b = false <-> a <> b.
Proof.
  rewrite <- str_eqb_eq. destruct (str_eqb a b); split; congruence.
Qed.

Section StripFacts.
Variable drop : char -> bool.

Lemma lstrip_by_app (a b : str) (c : char) :
  drop c = false ->
  lstrip_by drop (a ++ c :: b) = lstrip_by drop a ++ c :: b.
Proof.
  intros Hc. induction a as [|x a IH]; simpl.
  - now rewrite Hc.
  - destruct (drop x); [exact IH | reflexivity].
Qed.

Lemma lstrip_by_all (s : str) :
  lstrip_by drop s = [] <-> forallb drop s = true.
Proof.
  induction s as [|x s IH]; simpl; [tauto|].
  destruct (drop x); simpl; [exact IH|].
  split; discriminate.
Qed.

Lemma lstrip_by_head (s : str) (c : char) (t : str) :
  lstrip_by drop s = c :: t -> drop c = false.
Proof.
  induction s as [|x s IH]; simpl; [discriminate|].
  destruct (drop x) eqn:Hx; [exact IH|].
  intros H; injection H as -> _; exact Hx.
Qed.

Lemma lstrip_by_split (s : str) :
  exists p, s = p ++ lstrip_by drop s /\ forallb drop p = true.
Proof.
  induction s as [|x s [p [Hs Hp]]]; simpl.
  - now exists [].
  - destruct (drop x) eqn:Hx.
    + exists (x :: p); simpl. rewrite Hx, Hp. split; [now f_equal | reflexivity].
    + now exists [].
Qed.

Lemma lstrip_by_keep (c : char) (s : str) :
  drop c = false -> lstrip_by drop (c :: s) = c :: s.
Proof. intros H; simpl; now rewrite H. Qed.

Lemma rstrip_by_app (a b : str) (c : char) :
  drop c = false ->
  rstrip_by drop (a ++ c :: b) = a ++ c :: rstrip_by drop b.
Proof.
  intros Hc. unfold rstrip_by.
  rewrite rev_app_distr; simpl. rewrite <- app_assoc; simpl.
  rewrite (lstrip_by_app _ _ _ Hc), rev_app_distr; simpl.
  rewrite rev_involutive, <- app_assoc. reflexivity.
Qed.

Lemma rstrip_by_all (s : str) :
  rstrip_by drop s = [] <-> forallb drop s = true.
Proof.
  unfold rstrip_by. split.
  - intros H. apply (f_equal (@rev char)) in H. rewrite rev_involutive in H.
    simpl in H. apply lstrip_by_all in H.
    rewrite forallb_forall in *. intros x Hx. apply H, in_rev.
    now rewrite rev_involutive.
  - intros H. assert (E : lstrip_by drop (rev s) = []).
    { apply lstrip_by_all. rewrite forallb_forall in *.
      intros x Hx. apply H. now apply in_rev. }
    now rewrite E.
Qed.

Lemma rstrip_by_split (s : str) :
  exists p, s = rstrip_by drop s ++ p /\ forallb drop p = true.
Proof.
  unfold rstrip_by. destruct (lstrip_by_split (rev s)) as [p [Hs Hp]].
  exists (rev p). split.
  - rewrite <- rev_app_distr, <- Hs. now rewrite rev_involutive.
  - rewrite forallb_forall in *. intros x Hx. apply Hp. now apply in_rev.
Qed.

Lemma rstrip_by_last (s : str) (c : char) :
  rstrip_by drop s <> [] -> drop (last (rstrip_by drop s) c) = false.
Proof.
  unfold rstrip_by. destruct (lstrip_by drop (rev s)) as [|x t] eqn:E.
  - now intros [].
  - intros _. simpl. rewrite last_last. eapply lstrip_by_head; eauto.
Qed.

Lemma strip_by_split (s : str) :
  exists a b, s = a ++ strip_by drop s ++ b
              /\ forallb drop a = true /\ forallb drop b = true.
Proof.
  unfold strip_by.
  destruct (lstrip_by_split s) as [a [Hs Ha]].
  destruct (rstrip_by_split (lstrip_by drop s)) as [b [Ht Hb]].
  exists a, b. repeat split; try assumption.
  now rewrite <- Ht.
Qed.

Lemma strip_by_empty (s : str) :
  strip_by drop s = [] <-> forallb drop s = true.
Proof.
  unfold strip_by. rewrite rstrip_by_all. split.
  - intros H. destruct (lstrip_by_split s) as [p [Hs Hp]].
    rewrite Hs, forallb_app, Hp, H. reflexivity.
  - intros H. apply lstrip_by_all in H. now rewrite H.
Qed.

Lemma strip_by_first (s : str) (c : char) (t : str) :
  strip_by drop s = c :: t -> drop c = false.
Proof.
  unfold strip_by. intros H.
  destruct (lstrip_by drop s) as [|x u] eqn:E.
  - discriminate.
  - assert (Hx : drop x = false) by (eapply lstrip_by_head; eauto).
    destruct (rstrip_by_split (x :: u)) as [p [Hs _]].
    rewrite H in Hs. simpl in Hs. now injection Hs as ->.
Qed.

Lemma strip_by_last (s : str) (c : char) :
  strip_by drop s <> [] -> drop (last (strip_by drop s) c) = false.
Proof. apply rstrip_by_last. Qed.

Lemma strip_by_keep (c d : char) (s : str) :
  drop c = false -> drop d = false ->
  strip_by drop (c :: s ++ [d]) = c :: s ++ [d].
Proof.
  intros Hc Hd. unfold strip_by. rewrite (lstrip_by_keep _ _ Hc).
  change (c :: s ++ [d]) with ((c :: s) ++ d :: []).
  now rewrite (rstrip_by_app _ _ _ Hd).
Qed.

Lemma strip_by_keep1 (c : char) :
  drop c = false -> strip_by drop [c] = [c].
Proof.
  intros Hc. unfold strip_by, rstrip_by; simpl. rewrite Hc; simpl.
  now rewrite Hc.
Qed.

(** Text inside a stripped string survives stripping. *)
Lemma strip_by_inner (c d : char) (a b : str) :
  drop c = false -> drop d = false ->
  strip_by drop (c :: a ++ d :: b) = c :: a ++ d :: rstrip_by drop b.
Proof.
  intros Hc Hd. unfold strip_by. rewrite (lstrip_by_keep _ _ Hc).
  change (c :: a ++ d :: b) with ((c :: a) ++ d :: b).
  now rewrite (rstrip_by_app _ _ _ Hd).
Qed.
End StripFacts.

End TextFacts.

Module IntFacts.

Import Text Reading TextFacts.
Local Open Scope N_scope.

Lemma strip_by_none (drop : char -> bool) (s : str) :
  forallb (fun c => negb (drop c)) s = true -> strip_by drop s = s.
Proof.
  intros H. destruct s as [|c s]; [reflexivity|].
  destruct (exists_last (l := c :: s)) as [body [d E]]; [discriminate|].
  assert (Hc : drop c = false).
  { simpl in H. apply andb_true_iff in H as [H _].
    now destruct (drop c). }
  assert (Hd : drop d = false).
  { rewrite E, forallb_app in H. apply andb_true_iff in H as [_ H].
    simpl in H. now destruct (drop d). }
  destruct body as [|c' body]; simpl in E.
  - injection E as -> ->. now apply strip_by_keep1.
  - injection E as <- ->. now apply strip_by_keep.
Qed.

Lemma uint_digits_ascii (d : Decimal.uint) :
  forallb is_ascii_digit (uint_digits d) = true.
Proof. induction d; simpl; auto. Qed.

Lemma ascii_digit_not_space (c : char) :
  is_ascii_digit c = true -> int_space c = false.
Proof.
  unfold is_ascii_digit, int_space, isspace, between.
  intros H. apply andb_true_iff in H as [H1 H2].
  apply N.leb_le in H1. apply N.leb_le in H2.
  repeat match goal with
         | |- context [N.leb ?a ?b] =>
             destruct (N.leb_spec a b); try lia
         | |- context [N.eqb ?a ?b] =>
             destruct (N.eqb_spec a b); try lia
         end; reflexivity.
Qed.

Lemma ascii_digit_not_sep (c : char) :
  is_ascii_digit c = true -> N.eqb c 59 = false.
Proof.
  unfold is_ascii_digit, between. intros H.
  apply andb_true_iff in H as [H1 H2].
  apply N.leb_le in H1. apply N.leb_le in H2. apply N.eqb_neq. lia.
Qed.

Lemma int_digits_acc (d : Decimal.uint) (acc : positive) :
  int_digits true (N.pos acc) (uint_digits d)
  = Some (N.pos (Pos.of_uint_acc d acc)).
Proof.
  revert acc; induction d; intros acc; cbn [uint_digits int_digits Pos.of_uint_acc];
    [reflexivity|..];
    match goal with
    | |- context [N.eqb ?c 95] =>
        change (N.eqb c 95) with false; cbv iota;
        let v := eval vm_compute in (to_decimal c) in
        change (to_decimal c) with v; cbv iota
    end;
    match goal with
    | |- int_digits true ?n _ = Some (N.pos (Pos.of_uint_acc _ ?p)) =>
        replace n with (N.pos p) by lia
    end; apply IHd.
Qed.

Lemma int_digits_uint (d : Decimal.uint) :
  int_digits true 0 (uint_digits d) = Some (Pos.of_uint d).
Proof.
  induction d; cbn [uint_digits int_digits Pos.of_uint];
    [reflexivity|..];
    match goal with
    | |- context [N.eqb ?c 95] =>
        change (N.eqb c 95) with false; cbv iota;
        let v := eval vm_compute in (to_decimal c) in
        change (to_decimal c) with v; cbv iota
    end; cbn [N.mul N.add]; first [exact IHd | apply int_digits_acc].
Qed.

Lemma int_digits_start (d : Decimal.uint) :
  d <> Decimal.Nil ->
  int_digits false 0 (uint_digits d) = Some (Pos.of_uint d).
Proof.
  intros H. rewrite <- int_digits_uint.
  destruct d; [congruence|..]; reflexivity.
Qed.

Lemma int_unsigned (d : Decimal.uint) :
  d <> Decimal.Nil ->
  int (uint_digits d) = Some (Z.of_N (Pos.of_uint d)).
Proof.
  intros H. unfold int.
  rewrite strip_by_none.
  - pose proof (int_digits_start _ H) as E.
    pose proof (uint_digits_ascii d) as A.
    destruct (uint_digits d) as [|c t] eqn:U.
    + destruct d; [congruence|..]; discriminate.
    + cbn [forallb] in A. apply andb_true_iff in A as [A _].
      unfold is_ascii_digit, between in A.
      apply andb_true_iff in A as [A1 A2].
      apply N.leb_le in A1. apply N.leb_le in A2.
      destruct (N.eqb_spec c 45); [lia|].
      destruct (N.eqb_spec c 43); [lia|].
      now rewrite E.
  - pose proof (uint_digits_ascii d) as A.
    rewrite forallb_forall in *. intros c Hc.
    rewrite (ascii_digit_not_space _ (A c Hc)). reflexivity.
Qed.

Lemma int_negative (d : Decimal.uint) :
  d <> Decimal.Nil ->
  int (45 :: uint_digits d) = Some (- Z.of_N (Pos.of_uint d))%Z.
Proof.
  intros H. unfold int.
  rewrite strip_by_none.
  - cbv beta iota zeta. change (N.eqb 45 45) with true. cbv iota.
    now rewrite (int_digits_start _ H).
  - cbn [forallb]. apply andb_true_iff. split; [reflexivity|].
    pose proof (uint_digits_ascii d) as A.
    rewrite forallb_forall in *. intros c Hc.
    rewrite (ascii_digit_not_space _ (A c Hc)). reflexivity.
Qed.

(** Reading back the decimal text of an integer gives the integer. *)
Lemma int_str_of_int (z : Z) : int (str_of_int z) = Some z.
Proof.
  unfold str_of_int. destruct z as [|p|p]; cbn [Z.to_int].
  - reflexivity.
  - rewrite int_unsigned by apply DecimalPos.Unsigned.to_uint_nonnil.
    now rewrite DecimalPos.Unsigned.of_to.
  - rewrite int_negative by apply DecimalPos.Unsigned.to_uint_nonnil.
    now rewrite DecimalPos.Unsigned.of_to.
Qed.

(** The decimal text of a number: never empty, first character not
    whitespace, no separator and no line break inside. *)
Lemma str_of_int_shape (z : Z) :
  exists c t, str_of_int z = c :: t
              /\ isspace c = false
              /\ forallb (fun x => is_ascii_digit x || N.eqb x 45) (c :: t) = true.
Proof.
  assert (D : forall d, d <> Decimal.Nil ->
                exists c t, uint_digits d = c :: t /\ is_ascii_digit c = true).
  { intros d Hd. destruct d; [congruence|..]; cbn [uint_digits];
      eexists; eexists; split; reflexivity. }
  assert (S : forall c, is_ascii_digit c = true -> isspace c = false).
  { intros c Hc. pose proof (ascii_digit_not_space c Hc) as E.
    unfold int_space in E. apply andb_false_iff in E as [E|E]; [exact E|].
    unfold is_ascii_digit, between in *.
    apply andb_true_iff in Hc as [H1 H2].
    apply N.leb_le in H1. apply N.leb_le in H2.
    apply negb_false_iff, andb_true_iff in E as [E1 E2].
    apply N.leb_le in E2. lia. }
  assert (A : forall d, forallb (fun x => is_ascii_digit x || N.eqb x 45)
                          (uint_digits d) = true).
  { intros d. pose proof (uint_digits_ascii d) as H.
    rewrite forallb_forall in *. intros x Hx. now rewrite (H x Hx). }
  unfold str_of_int. destruct z as [|p|p]; cbn [Z.to_int].
  - exists 48, []. repeat split.
  - destruct (D (Pos.to_uint p)) as [c [t [E Hc]]];
      [apply DecimalPos.Unsigned.to_uint_nonnil|].
    exists c, t. split; [exact E|]. split; [now apply S|].
    rewrite <- E. apply A.
  - exists 45, (uint_digits (Pos.to_uint p)). repeat split.
    cbn [forallb]. now rewrite A.
Qed.

End IntFacts.

Module LogFacts.

Import Text Questionnaire Reading TextFacts.
Local Open Scope N_scope.

Lemma cut_semicolon (s : str) :
  cut [59] s = if (0 <? count_sep s)%nat
               then Some (first_field s, after_sep s) else None.
Proof.
  induction s as [|c t IH].
  - reflexivity.
  - cbn [cut starts_with count_sep first_field after_sep List.length skipn].
    rewrite (N.eqb_sym 59 c).
    destruct (N.eqb c 59) eqn:Hc; cbn [andb].
    + reflexivity.
    + rewrite IH. cbn [Nat.add]. destruct (0 <? count_sep t)%nat; reflexivity.
Qed.

Lemma count_after_sep (s : str) :
  (0 < count_sep s)%nat -> count_sep s = S (count_sep (after_sep s)).
Proof.
  induction s as [|c t IH]; simpl; [lia|].
  destruct (N.eqb c 59); simpl; [lia | exact IH].
Qed.

Lemma contains_semicolon (s : str) :
  contains [59] s = (0 <? count_sep s)%nat.
Proof.
  unfold contains. rewrite cut_semicolon.
  now destruct (0 <? count_sep s)%nat.
Qed.

Lemma split_semicolon_length (s : str) :
  Nat.leb 3 (List.length (split [59] 2 s)) = Nat.leb 2 (count_sep s).
Proof.
  cbn [split]. rewrite cut_semicolon.
  destruct (0 <? count_sep s)%nat eqn:H0.
  - apply Nat.ltb_lt in H0. rewrite (count_after_sep s H0).
    rewrite cut_semicolon.
    destruct (0 <? count_sep (after_sep s))%nat eqn:H1; cbn [List.length].
    + apply Nat.ltb_lt in H1. symmetry. apply Nat.leb_le. lia.
    + apply Nat.ltb_ge in H1. symmetry.
      replace (count_sep (after_sep s)) with 0%nat by lia. reflexivity.
  - apply Nat.ltb_ge in H0. replace (count_sep s) with 0%nat by lia.
    reflexivity.
Qed.

Lemma split_semicolon_first (s : str) :
  (0 < count_sep s)%nat -> nth 0 (split [59] 2 s) [] = first_field s.
Proof.
  intros H. cbn [split]. rewrite cut_semicolon.
  apply Nat.ltb_lt in H. rewrite H. reflexivity.
Qed.

Lemma truthy_strip (line : str) : truthy (strip line) = negb (blank line).
Proof.
  unfold blank, strip. destruct (strip_by isspace line) eqn:E.
  - apply strip_by_empty in E. now rewrite E.
  - destruct (forallb isspace line) eqn:F; [|reflexivity].
    apply strip_by_empty in F. congruence.
Qed.

(** One turn of the loop adds the index the line records, if any. *)
Lemma scan_line_record (last_id : Z) (line : str) :
  scan_line last_id line =
  match record_index line with
  | Some i => Z.max last_id i
  | None => last_id
  end.
Proof.
  unfold scan_line, record_index, index_with.
  change (lit ";") with [59].
  rewrite truthy_strip, contains_semicolon, split_semicolon_length.
  destruct (blank line); cbn [negb andb]; [reflexivity|].
  destruct (0 <? count_sep (strip line))%nat eqn:H0.
  - destruct (2 <=? count_sep (strip line))%nat eqn:H2.
    + apply Nat.ltb_lt in H0. rewrite (split_semicolon_first _ H0).
      apply Nat.leb_le in H2.
      replace (count_sep (strip line) <? 2)%nat with false
        by (symmetry; apply Nat.ltb_ge; lia).
      reflexivity.
    + apply Nat.leb_gt in H2.
      replace (count_sep (strip line) <? 2)%nat with true
        by (symmetry; apply Nat.ltb_lt; lia).
      reflexivity.
  - apply Nat.ltb_ge in H0.
    replace (count_sep (strip line) <? 2)%nat with true
      by (symmetry; apply Nat.ltb_lt; lia).
    reflexivity.
Qed.

Lemma fold_scan_line (lines : list str) (acc : Z) :
  fold_left scan_line lines acc
  = fold_right Z.max acc (indices_by record_index lines).
Proof.
  revert acc; induction lines as [|l ls IH]; intros acc; simpl.
  - reflexivity.
  - rewrite IH, scan_line_record. unfold indices_by at 2; simpl.
    fold (indices_by record_index ls).
    destruct (record_index l) as [i|]; simpl; [|reflexivity].
    generalize (indices_by record_index ls) as idx.
    induction idx as [|j idx IHi]; simpl; lia.
Qed.

Lemma scan_lines_max (lines : list str) :
  scan_lines lines = fold_right Z.max 0%Z (indices_by record_index lines).
Proof. apply fold_scan_line. Qed.

Lemma max_perm (a b : list Z) :
  Permutation a b -> fold_right Z.max 0%Z a = fold_right Z.max 0%Z b.
Proof.
  induction 1; simpl; lia.
Qed.

Lemma scan_lines_perm (lines lines' : list str) :
  Permutation lines lines' -> scan_lines lines = scan_lines lines'.
Proof.
  intros H. rewrite !scan_lines_max. apply max_perm.
  unfold indices_by. now apply Permutation_flat_map.
Qed.

Lemma scan_lines_nonneg (lines : list str) : (0 <= scan_lines lines)%Z.
Proof.
  rewrite scan_lines_max.
  induction (indices_by record_index lines); simpl; lia.
Qed.

Lemma max_bound (idx : list Z) (b : Z) :
  (0 <= b)%Z -> Forall (fun i => (i <= b)%Z) idx ->
  (fold_right Z.max 0 idx <= b)%Z.
Proof.
  intros Hb H; induction H; simpl; lia.
Qed.

Lemma max_in (idx : list Z) :
  fold_right Z.max 0%Z idx = 0%Z \/ In (fold_right Z.max 0%Z idx) idx.
Proof.
  induction idx as [|i idx IH]; simpl; [now left|].
  destruct (Z.max_spec i (fold_right Z.max 0%Z idx)) as [[_ E]|[_ E]];
    rewrite E; [|now right; left].
  destruct IH as [IH|IH]; [now left | now right; right].
Qed.

End LogFacts.

Module LineFacts.

Import Text Questionnaire Reading TextFacts.
Local Open Scope N_scope.

Lemma translate_newlines_id (s : str) :
  ~ In 13 s -> translate_newlines s = s.
Proof.
  induction s as [|c t IH]; intros H; [reflexivity|].
  cbn [translate_newlines].
  destruct (N.eqb_spec c 13) as [->|_].
  - exfalso. apply H. now left.
  - rewrite IH; [reflexivity|]. intros F. apply H. now right.
Qed.

Lemma translate_newlines_app (a b : str) :
  hd 0 b <> 10 ->
  translate_newlines (a ++ b) = translate_newlines a ++ translate_newlines b.
Proof.
  intros Hb. induction a as [|c a IH]; [reflexivity|].
  cbn [app translate_newlines].
  destruct (N.eqb c 13).
  - destruct a as [|d a'].
    + cbn [app]. destruct b as [|d b']; [reflexivity|].
      cbn [hd] in Hb. destruct (N.eqb_spec d 10); [contradiction|].
      reflexivity.
    + cbn [app] in *. destruct (N.eqb d 10); rewrite IH; reflexivity.
  - now rewrite IH.
Qed.

Lemma translate_newlines_end (s : str) :
  exists t, translate_newlines (s ++ [10]) = t ++ [10].
Proof.
  induction s as [|c s [t IH]].
  - now exists [].
  - cbn [app translate_newlines].
    destruct (N.eqb c 13).
    + destruct s as [|d s']; cbn [app] in *.
      * now exists [].
      * destruct (N.eqb d 10).
        -- now exists t.
        -- exists (10 :: t). now rewrite IH.
    + exists (c :: t). now rewrite IH.
Qed.

Lemma lines_of_nonempty (s : str) : s <> [] -> lines_of s <> [].
Proof.
  destruct s as [|c t]; [congruence|]. intros _. cbn [lines_of].
  destruct (N.eqb c 10); [discriminate|].
  destruct (lines_of t); discriminate.
Qed.

Lemma lines_of_line (body rest : str) :
  ~ In 10 body ->
  lines_of (body ++ 10 :: rest) = (body ++ [10]) :: lines_of rest.
Proof.
  induction body as [|c body IH]; intros H.
  - reflexivity.
  - cbn [app lines_of].
    destruct (N.eqb_spec c 10) as [->|_].
    + exfalso. apply H. now left.
    + rewrite IH; [reflexivity|]. intros F. apply H. now right.
Qed.

Lemma lines_of_app (a b : str) :
  lines_of ((a ++ [10]) ++ b) = lines_of (a ++ [10]) ++ lines_of b.
Proof.
  induction a as [|c a IH].
  - reflexivity.
  - cbn [app lines_of] in *. destruct (N.eqb c 10).
    + now rewrite IH.
    + rewrite IH.
      pose proof (lines_of_nonempty (a ++ [10])) as N.
      destruct (lines_of (a ++ [10])); [|reflexivity].
      exfalso. apply N; [|reflexivity]. now destruct a.
Qed.

(** A text made of terminated lines is read back line by line. *)
Lemma lines_of_concat (bodies : list str) :
  Forall (fun b => ~ In 10 b) bodies ->
  lines_of (List.concat (map (fun b => b ++ [10]) bodies))
  = map (fun b => b ++ [10]) bodies.
Proof.
  induction 1 as [|b bs Hb _ IH]; [reflexivity|].
  cbn [map List.concat]. rewrite <- app_assoc. cbn [app].
  now rewrite (lines_of_line _ _ Hb), IH.
Qed.

Lemma not_in_app (x : char) (a b : str) :
  ~ In x (a ++ b) <-> ~ In x a /\ ~ In x b.
Proof. rewrite in_app_iff. tauto. Qed.

Lemma not_in_concat (x : char) (ls : list str) :
  Forall (fun l => ~ In x l) ls -> ~ In x (List.concat ls).
Proof.
  induction 1 as [|l ls Hl _ IH]; simpl; [tauto|].
  rewrite in_app_iff. tauto.
Qed.

Lemma readlines_concat (bodies : list str) :
  Forall line_free bodies ->
  readlines (List.concat (map (fun b => b ++ [10]) bodies))
  = map (fun b => b ++ [10]) bodies.
Proof.
  intros H. unfold readlines. rewrite translate_newlines_id.
  - apply lines_of_concat. eapply Forall_impl; [|exact H].
    now intros b [Hb _].
  - apply not_in_concat. apply Forall_map.
    eapply Forall_impl; [|exact H].
    intros b [_ Hb]. cbv beta. rewrite not_in_app. split; [exact Hb|].
    simpl. intros [F|[]]. discriminate.
Qed.

(** Appending one terminated line to a complete text adds one line. *)
Lemma readlines_append (old body : str) :
  old = [] \/ last old 0 = 10 ->
  line_free body -> hd 0 (body ++ [10]) <> 10 ->
  readlines (old ++ body ++ [10]) = readlines old ++ [body ++ [10]].
Proof.
  intros Hold [Hlf Hcr] Hhd. unfold readlines.
  assert (Eb : translate_newlines (body ++ [10]) = body ++ [10]).
  { apply translate_newlines_id. rewrite not_in_app. split; [exact Hcr|].
    simpl. intros [F|[]]. discriminate. }
  assert (Lb : lines_of (body ++ [10]) = [body ++ [10]]).
  { change (body ++ [10]) with (body ++ 10 :: []) at 1.
    now rewrite (lines_of_line _ _ Hlf). }
  rewrite translate_newlines_app by assumption. rewrite Eb.
  destruct Hold as [->|Hold]; [cbn [translate_newlines app lines_of]; now rewrite Lb|].
  destruct old as [|c old]; [cbn [translate_newlines app lines_of]; now rewrite Lb|].
  destruct (exists_last (l := c :: old)) as [pre [d E]]; [discriminate|].
  rewrite E in *. rewrite last_last in Hold. subst d.
  destruct (translate_newlines_end pre) as [t Et].
  unfold str, char in *. rewrite Et.
  now rewrite lines_of_app, Lb.
Qed.

Lemma line_free_app (a b : str) :
  line_free (a ++ b) <-> line_free a /\ line_free b.
Proof. unfold line_free. rewrite !not_in_app. tauto. Qed.

Lemma line_free_sub (a b c : str) : line_free (a ++ b ++ c) -> line_free b.
Proof. rewrite !line_free_app. tauto. Qed.

Lemma line_free_strip (s : str) : line_free s -> line_free (strip s).
Proof.
  intros H. destruct (strip_by_split isspace s) as [a [b [E _]]].
  rewrite E in H. now apply line_free_sub in H.
Qed.

Lemma line_free_lit_skipped : line_free (lit "[SKIPPED]").
Proof.
  split; vm_compute; intuition discriminate.
Qed.

End LineFacts.

Module AskFacts.

Import Text Questionnaire Reading TextFacts.
Local Open Scope N_scope.

Lemma save_answer_files (m : manager) (i : Z) (q a : str) (w1 w2 : world) :
  files w1 = files w2 ->
  files (save_answer m i q a w1) = files (save_answer m i q a w2).
Proof.
  intros H. unfold save_answer, append_file, print.
  destruct (answers_file_path m); cbn [files]; now rewrite H.
Qed.

Lemma save_answer_stdin (m : manager) (i : Z) (q a : str) (w : world) :
  stdin (save_answer m i q a w) = stdin w.
Proof.
  unfold save_answer, append_file, print.
  now destruct (answers_file_path m).
Qed.

Lemma save_answer_log (m : manager) (i : Z) (q a path : str) (w : world) :
  answers_file_path m = Some path ->
  files (save_answer m i q a w) path
  = Some (match files w path with
          | Some old => old ++ record_line i q a
          | None => record_line i q a
          end).
Proof.
  intros H. unfold save_answer, append_file. rewrite H. cbn [files].
  now rewrite str_eqb_refl.
Qed.

Lemma save_answer_other (m : manager) (i : Z) (q a path p : str) (w : world) :
  answers_file_path m = Some path -> p <> path ->
  files (save_answer m i q a w) p = files w p.
Proof.
  intros H Hp. unfold save_answer, append_file. rewrite H. cbn [files].
  apply str_eqb_neq in Hp. now rewrite Hp.
Qed.

(** A blank line makes the loop take one more turn on the same
    question, with nothing written. *)
Lemma answer_loop_blank (m : manager) (i : Z) (raw : str)
    (rest : list console) (w : world) :
  strip raw = [] ->
  answer_loop m i (Line raw :: rest) w
  = answer_loop m i rest
      (print PleaseProvideAnswer (with_stdin rest (print AnswerPrompt w))).
Proof.
  intros H. cbn [answer_loop]. rewrite H. reflexivity.
Qed.

Lemma answer_loop_quit (m : manager) (i : Z) (raw : str)
    (rest : list console) (w : world) :
  upper (strip raw) = lit "QUIT" ->
  answer_loop m i (Line raw :: rest) w
  = (Ret false,
     print (SessionSaved (i + 1)) (with_stdin rest (print AnswerPrompt w))).
Proof.
  intros H. cbn [answer_loop]. rewrite H. reflexivity.
Qed.

Lemma answer_loop_answer (m : manager) (i : Z) (q raw : str)
    (rest : list console) (w : world) :
  getitem (questions m) i = Some q ->
  strip raw <> [] -> upper (strip raw) <> lit "QUIT" ->
  answer_loop m i (Line raw :: rest) w
  = (Ret true,
     print AnswerSaved
       (save_answer m i q (recorded_answer raw)
          (with_stdin rest (print AnswerPrompt w)))).
Proof.
  intros Hq Hne Hquit. cbn [answer_loop]. rewrite Hq.
  apply str_eqb_neq in Hquit. rewrite Hquit. unfold recorded_answer.
  destruct (str_eqb (upper (strip raw)) (lit "SKIP")); [reflexivity|].
  destruct (strip raw); [congruence | reflexivity].
Qed.

(** Every way the loop can end, read off the pending console events:
    blank lines are passed over, and the first other event decides. *)
Lemma answer_loop_cases (m : manager) (i : Z) (q : str)
    (pending : list console) (w : world) :
  getitem (questions m) i = Some q ->
  exists blanks,
    Forall (fun b => strip b = []) blanks /\
    let prompts :=
      List.concat (map (fun _ => [AnswerPrompt; PleaseProvideAnswer]) blanks)
      ++ [AnswerPrompt] in
    (pending = map Line blanks
     /\ answer_loop m i pending w
        = (Stuck, World (files w) [] (stdout w ++ prompts)))
    \/ (exists rest,
         pending = map Line blanks ++ CtrlC :: rest
         /\ answer_loop m i pending w
            = (Ret false,
               World (files w) rest
                 (stdout w ++ prompts ++ [SessionInterrupted (i + 1)])))
    \/ (exists raw rest,
         pending = map Line blanks ++ Line raw :: rest
         /\ upper (strip raw) = lit "QUIT"
         /\ answer_loop m i pending w
            = (Ret false,
               World (files w) rest
                 (stdout w ++ prompts ++ [SessionSaved (i + 1)])))
    \/ (exists raw rest,
         pending = map Line blanks ++ Line raw :: rest
         /\ strip raw <> [] /\ upper (strip raw) <> lit "QUIT"
         /\ answer_loop m i pending w
            = (Ret true,
               print AnswerSaved
                 (save_answer m i q (recorded_answer raw)
                    (World (files w) rest (stdout w ++ prompts))))).
Proof.
  intros Hq. revert w.
  induction pending as [|e pending IH]; intros w.
  - exists []. split; [constructor|]. left. split; reflexivity.
  - destruct e as [raw|].
    + destruct (str_eqb (upper (strip raw)) (lit "QUIT")) eqn:Hquit.
      * apply str_eqb_eq in Hquit.
        exists []. split; [constructor|]. right; right; left.
        exists raw, pending. split; [reflexivity|]. split; [exact Hquit|].
        rewrite answer_loop_quit by exact Hquit.
        unfold print, with_stdin; cbn. now rewrite <- app_assoc.
      * apply str_eqb_neq in Hquit.
        destruct (list_eq_dec N.eq_dec (strip raw) []) as [Hs|Hs].
        -- rewrite answer_loop_blank by exact Hs.
           destruct (IH (print PleaseProvideAnswer
                           (with_stdin pending (print AnswerPrompt w))))
             as [blanks [Hb Hcase]].
           exists (raw :: blanks). split; [now constructor|].
           clear IH.
           cbn [map List.concat app stdout files print with_stdin] in *.
           repeat (rewrite <- app_assoc in Hcase; cbn [app] in Hcase).
           repeat (rewrite <- app_assoc; cbn [app]).
           destruct Hcase as [[-> E]|[[rest [-> E]]|[[r [rest [-> [Hr E]]]]
                                                   |[r [rest [-> [H1 [H2 E]]]]]]]].
           ++ left. split; [reflexivity | exact E].
           ++ right; left. exists rest. split; [reflexivity | exact E].
           ++ right; right; left. exists r, rest.
              split; [reflexivity|]. split; [exact Hr | exact E].
           ++ right; right; right. exists r, rest.
              split; [reflexivity|]. split; [exact H1|]. split; [exact H2 | exact E].
        -- exists []. split; [constructor|]. right; right; right.
           exists raw, pending. split; [reflexivity|].
           split; [exact Hs|]. split; [exact Hquit|].
           now rewrite (answer_loop_answer m i q raw pending w Hq Hs Hquit).
    + exists []. split; [constructor|]. right; left.
      exists pending. split; [reflexivity|].
      cbn [answer_loop]. unfold print, with_stdin; cbn.
      now rewrite <- app_assoc.
Qed.

End AskFacts.

Module CaseFacts.

Import Text Questionnaire Reading TextFacts IntFacts.
Local Open Scope N_scope.

Ltac decide_tests :=
  repeat match goal with
         | |- context [N.leb ?a ?b] => destruct (N.leb_spec a b); try lia
         | |- context [N.eqb ?a ?b] => destruct (N.eqb_spec a b); try lia
         end.

Lemma upper_char_upper (c : char) : 65 <= c <= 90 -> upper_char c = [c].
Proof.
  intros H. unfold upper_char, between. decide_tests; reflexivity.
Qed.

Lemma upper_char_lower (c : char) :
  65 <= c <= 90 -> upper_char (c + 32) = [c].
Proof.
  intros H. unfold upper_char, between. decide_tests; cbn [andb negb].
  f_equal. lia.
Qed.

Lemma letter_not_space (c d : char) :
  65 <= c <= 90 -> d = c \/ d = c + 32 -> isspace d = false.
Proof.
  intros H Hd. unfold isspace, between. decide_tests; reflexivity.
Qed.

(** Upper-casing a word typed in any letter case gives the word. *)
Lemma upper_any_case (word s : str) :
  upper_letters word -> any_case word s -> upper s = word.
Proof.
  intros Hw H. induction H as [|c d word s Hd _ IH]; [reflexivity|].
  inversion Hw as [|? ? Hc Hw']; subst.
  unfold upper; cbn [flat_map]. fold (upper s). rewrite (IH Hw').
  destruct Hd as [->| ->];
    [rewrite upper_char_upper | rewrite upper_char_lower]; auto.
Qed.

Lemma strip_any_case (word s : str) :
  upper_letters word -> any_case word s -> strip s = s.
Proof.
  intros Hw H. apply strip_by_none.
  induction H as [|c d word s Hd _ IH]; [reflexivity|].
  inversion Hw as [|? ? Hc Hw']; subst. cbn [forallb].
  rewrite (letter_not_space c d Hc Hd). cbn [negb andb]. now apply IH.
Qed.

Lemma upper_strip_any_case (word s : str) :
  upper_letters word -> any_case word s -> upper (strip s) = word.
Proof.
  intros Hw H. rewrite (strip_any_case word s Hw H).
  now apply upper_any_case.
Qed.

Lemma upper_letters_quit : upper_letters (lit "QUIT").
Proof. repeat constructor; vm_compute; discriminate. Qed.

Lemma upper_letters_skip : upper_letters (lit "SKIP").
Proof. repeat constructor; vm_compute; discriminate. Qed.

End CaseFacts.

Module LoadFacts.

Import Text Questionnaire Reading TextFacts LogFacts AskFacts.
Local Open Scope N_scope.

Lemma getitem_In {A : Type} (xs : list A) (i : Z) (x : A) :
  getitem xs i = Some x -> In x xs.
Proof.
  unfold getitem.
  destruct ((0 <=? _) && _)%Z; [|discriminate].
  apply nth_error_In.
Qed.

Lemma getitem_nonneg {A : Type} (xs : list A) (i : Z) :
  (0 <= i)%Z ->
  getitem xs i = if (i <? Z.of_nat (List.length xs))%Z
                 then nth_error xs (Z.to_nat i) else None.
Proof.
  intros H. unfold getitem.
  destruct (Z.ltb_spec i 0); [lia|].
  destruct (Z.leb_spec 0 i); [|lia]. reflexivity.
Qed.

Lemma getitem_Some {A : Type} (xs : list A) (i : Z) :
  (0 <= i < Z.of_nat (List.length xs))%Z -> exists x, getitem xs i = Some x.
Proof.
  intros H. rewrite getitem_nonneg by lia.
  destruct (Z.ltb_spec i (Z.of_nat (List.length xs))); [|lia].
  destruct (nth_error xs (Z.to_nat i)) eqn:E; [now eexists|].
  apply nth_error_None in E. lia.
Qed.

Lemma filter_truthy_strip (lines : list str) :
  filter (fun line => truthy (strip line)) lines
  = filter (fun line => negb (blank line)) lines.
Proof. apply filter_ext. intros l. apply truthy_strip. Qed.

Lemma load_questions_found (m : manager) (suffix content : str) (w : world) :
  files w (lit "600Q_" ++ suffix ++ lit ".txt") = Some content ->
  load_questions m suffix w
  = (true,
     Manager (current_language m)
       (map strip (filter (fun line => negb (blank line)) (readlines content)))
       (answers_file_path m) (Some (lit "600Q_" ++ suffix ++ lit ".txt")),
     print (QuestionsLoaded
              (List.length (filter (fun line => negb (blank line))
                              (readlines content)))) w).
Proof.
  intros H. unfold load_questions. rewrite H.
  cbn [current_language answers_file_path questions_file_path].
  now rewrite filter_truthy_strip, length_map.
Qed.

Lemma strip_shape (line : str) :
  blank line = false ->
  exists c t, strip line = c :: t
              /\ isspace c = false /\ isspace (last (strip line) c) = false.
Proof.
  intros H. destruct (strip line) as [|c t] eqn:E.
  - apply (strip_by_empty isspace) in E. unfold blank in H. congruence.
  - exists c, t. split; [reflexivity|]. split.
    + now apply (strip_by_first isspace line c t).
    + rewrite <- E. apply (strip_by_last isspace). unfold strip in E.
      rewrite E. discriminate.
Qed.

End LoadFacts.

Module LoadedLineFacts.

Import Text Questionnaire Reading TextFacts LogFacts LineFacts LoadFacts.
Local Open Scope N_scope.

Lemma translate_newlines_no_cr (s : str) : ~ In 13 (translate_newlines s).
Proof.
  assert (G : forall n s, (List.length s <= n)%nat ->
                          ~ In 13 (translate_newlines s)).
  { induction n as [|n IH]; intros [|c t] Hl; cbn [List.length] in Hl;
      try (simpl; tauto); try lia.
    cbn [translate_newlines].
    destruct (N.eqb_spec c 13) as [->|Hc].
    - destruct t as [|d t']; [simpl; intuition discriminate|].
      destruct (N.eqb d 10).
      + apply IH. lia.
      + intros [F|F]; [discriminate|]. revert F. apply IH. lia.
    - intros [F|F]; [congruence|]. revert F. apply IH. lia. }
  apply (G (List.length s)). lia.
Qed.

(** Each line read from a text is a stretch without LF, followed by
    one LF at most, and holds only characters of the text. *)
Lemma lines_of_shape (s : str) :
  Forall (fun l => exists b, (l = b ++ [10] \/ l = b) /\ ~ In 10 b
                             /\ forall x, In x l -> In x s)
         (lines_of s).
Proof.
  induction s as [|c t IH]; [constructor|].
  cbn [lines_of]. destruct (N.eqb_spec c 10) as [->|Hc].
  - constructor.
    + exists []. split; [now left|]. split; [simpl; tauto|].
      intros x [<-|[]]. now left.
    + eapply Forall_impl; [|exact IH].
      intros l [b [Hl [Hb Hi]]]. exists b. split; [exact Hl|].
      split; [exact Hb|]. intros x Hx. right. now apply Hi.
  - destruct (lines_of t) as [|l ls].
    + constructor; [|constructor].
      exists [c]. split; [now right|].
      split; [intros [F|[]]; congruence|]. intros x [<-|[]]. now left.
    + inversion IH as [|? ? [b [Hl [Hb Hi]]] Hrest]; subst.
      constructor.
      * exists (c :: b). split; [destruct Hl as [->| ->]; [left | right];
                                  reflexivity|].
        split; [intros [F|F]; [congruence | contradiction]|].
        intros x [<-|Hx]; [now left | right; now apply Hi].
      * eapply Forall_impl; [|exact Hrest].
        intros l' [b' [Hl' [Hb' Hi']]]. exists b'. split; [exact Hl'|].
        split; [exact Hb'|]. intros x Hx. right. now apply Hi'.
Qed.

Lemma last_lf_only (x y b : str) :
  x ++ 10 :: y = b ++ [10] -> ~ In 10 b -> y = [].
Proof.
  revert b. induction x as [|c x IH]; intros [|d b] E Hb; cbn [app] in E.
  - now injection E.
  - injection E as <- _. exfalso. apply Hb. now left.
  - injection E as _ E. now destruct x.
  - injection E as _ E. apply (IH b E). intros F. apply Hb. now right.
Qed.

Lemma strip_line_no_lf (l b : str) :
  l = b ++ [10] \/ l = b -> ~ In 10 b -> ~ In 10 (strip l).
Proof.
  intros Hl Hb Hin.
  destruct (strip_by_split isspace l) as [a [c [E _]]]. fold (strip l) in E.
  destruct Hl as [Hl|Hl].
  - apply in_split in Hin as [u [v Huv]].
    assert (Hv : v ++ c = []).
    { apply (last_lf_only (a ++ u) (v ++ c) b); [|exact Hb].
      rewrite <- Hl, E, Huv, <- !app_assoc. reflexivity. }
    apply app_eq_nil in Hv as [-> _].
    assert (Hs : strip l <> []) by (rewrite Huv; now destruct u).
    pose proof (strip_by_last isspace l 0 Hs) as Hlast.
    fold (strip l) in Hlast. rewrite Huv, last_last in Hlast. discriminate.
  - apply Hb. rewrite <- Hl, E. apply in_or_app. right.
    apply in_or_app. now left.
Qed.

(** The questions [load_questions] produces hold no line break. *)
Lemma loaded_questions_line_free (content : str) :
  Forall line_free
    (map strip (filter (fun line => negb (blank line)) (readlines content))).
Proof.
  apply Forall_map, Forall_forall. intros l Hin.
  apply filter_In in Hin as [Hin _]. unfold readlines in Hin.
  pose proof (lines_of_shape (translate_newlines content)) as S.
  rewrite Forall_forall in S. destruct (S l Hin) as [b [Hl [Hb Hi]]].
  split.
  - now apply (strip_line_no_lf l b).
  - intros F. apply (translate_newlines_no_cr content). apply Hi.
    destruct (strip_by_split isspace l) as [a [c [E _]]].
    fold (strip l) in E. rewrite E. apply in_or_app. right.
    apply in_or_app. now left.
Qed.

End LoadedLineFacts.

Module RecordFacts.

Import Text Questionnaire Reading TextFacts IntFacts LogFacts LineFacts.
Local Open Scope N_scope.

Lemma rstrip_by_drop_last (drop : char -> bool) (a : str) (c : char) :
  drop c = true -> rstrip_by drop (a ++ [c]) = rstrip_by drop a.
Proof.
  intros H. unfold rstrip_by. rewrite rev_app_distr. cbn [rev app lstrip_by].
  now rewrite H.
Qed.

Lemma first_field_app (x y : str) :
  ~ In 59 x -> first_field (x ++ 59 :: y) = x.
Proof.
  induction x as [|c x IH]; intros H; cbn [app first_field].
  - reflexivity.
  - destruct (N.eqb_spec c 59) as [->|_].
    + exfalso. apply H. now left.
    + rewrite IH; [reflexivity|]. intros F. apply H. now right.
Qed.

Lemma after_sep_app (x y : str) :
  ~ In 59 x -> after_sep (x ++ 59 :: y) = y.
Proof.
  induction x as [|c x IH]; intros H; cbn [app after_sep].
  - reflexivity.
  - destruct (N.eqb_spec c 59) as [->|_].
    + exfalso. apply H. now left.
    + apply IH. intros F. apply H. now right.
Qed.

Lemma count_sep_app (x y : str) :
  count_sep (x ++ y) = (count_sep x + count_sep y)%nat.
Proof.
  induction x as [|c x IH]; cbn [app count_sep]; [reflexivity|].
  rewrite IH. lia.
Qed.

Lemma split_three (x y z : str) :
  ~ In 59 x -> ~ In 59 y ->
  split [59] 2 (x ++ 59 :: y ++ 59 :: z) = [x; y; z].
Proof.
  intros Hx Hy. cbn [split]. rewrite cut_semicolon.
  rewrite count_sep_app. cbn [count_sep]. rewrite N.eqb_refl.
  match goal with
  | |- context [Nat.ltb 0 ?n] =>
      replace (Nat.ltb 0 n) with true by (symmetry; apply Nat.ltb_lt; lia)
  end.
  rewrite first_field_app, after_sep_app by assumption.
  rewrite cut_semicolon, count_sep_app. cbn [count_sep]. rewrite N.eqb_refl.
  match goal with
  | |- context [Nat.ltb 0 ?n] =>
      replace (Nat.ltb 0 n) with true by (symmetry; apply Nat.ltb_lt; lia)
  end.
  now rewrite first_field_app, after_sep_app by assumption.
Qed.

Lemma str_of_int_no_sep (z : Z) : ~ In 59 (str_of_int z).
Proof.
  destruct (str_of_int_shape z) as [c [t [E [_ A]]]]. rewrite E.
  rewrite forallb_forall in A. intros F. specialize (A _ F).
  apply orb_true_iff in A as [A|A].
  - apply ascii_digit_not_sep in A. discriminate.
  - discriminate.
Qed.

Lemma str_of_int_line_free (z : Z) : line_free (str_of_int z).
Proof.
  destruct (str_of_int_shape z) as [c [t [E [_ A]]]]. rewrite E.
  rewrite forallb_forall in A.
  split; intros F; specialize (A _ F); apply orb_true_iff in A as [A|A];
    discriminate.
Qed.

(** The text of a record after [strip]: only whitespace at the end
    of the answer is lost. *)
Lemma strip_record_line (i : Z) (q a : str) :
  strip (record_line i q a)
  = str_of_int i ++ 59 :: q ++ 59 :: rstrip_by isspace a.
Proof.
  unfold record_line. change (lit ";") with [59].
  destruct (str_of_int_shape i) as [c [t [E [Hc _]]]]. rewrite E.
  cbn [app].
  unfold strip. rewrite strip_by_inner by (assumption || reflexivity).
  rewrite rstrip_by_app by reflexivity.
  now rewrite rstrip_by_drop_last by reflexivity.
Qed.

Lemma record_line_not_blank (i : Z) (q a : str) :
  blank (record_line i q a) = false.
Proof.
  unfold record_line, blank.
  destruct (str_of_int_shape i) as [c [t [E [Hc _]]]]. rewrite E.
  cbn [app forallb]. now rewrite Hc.
Qed.

(** Every record the program writes is read back with its index. *)
Lemma record_index_record_line (i : Z) (q a : str) :
  record_index (record_line i q a) = Some i.
Proof.
  unfold record_index, index_with.
  rewrite record_line_not_blank, strip_record_line.
  rewrite count_sep_app. cbn [count_sep]. rewrite N.eqb_refl.
  rewrite count_sep_app. cbn [count_sep]. rewrite N.eqb_refl.
  match goal with
  | |- (if (?n <? 2)%nat then _ else _) = _ =>
      replace (n <? 2)%nat with false by (symmetry; apply Nat.ltb_ge; lia)
  end.
  rewrite first_field_app by apply str_of_int_no_sep.
  apply int_str_of_int.
Qed.

Lemma record_line_body (i : Z) (q a : str) :
  record_line i q a = (str_of_int i ++ 59 :: q ++ 59 :: a) ++ [10].
Proof.
  unfold record_line. change (lit ";") with [59].
  cbn [app]. repeat (rewrite <- app_assoc; cbn [app]). reflexivity.
Qed.

Lemma record_body_line_free (i : Z) (q a : str) :
  line_free q -> line_free a ->
  line_free (str_of_int i ++ 59 :: q ++ 59 :: a).
Proof.
  intros Hq Ha.
  assert (S : line_free [59]) by (split; simpl; intuition discriminate).
  change (59 :: q ++ 59 :: a) with ([59] ++ q ++ [59] ++ a).
  rewrite !line_free_app. pose proof (str_of_int_line_free i). tauto.
Qed.

End RecordFacts.

Module SessionFacts.

Import Text Questionnaire Reading TextFacts LogFacts LineFacts AskFacts
       LoadFacts RecordFacts.
Local Open Scope Z_scope.

Lemma asked_app (a b : list event) : asked (a ++ b) = asked a ++ asked b.
Proof. apply flat_map_app. Qed.

Lemma prompts_quiet (blanks : list str) :
  asked (prompts_for blanks) = []
  /\ existsb is_stop (prompts_for blanks) = false.
Proof.
  unfold prompts_for. induction blanks as [|b bs [IH1 IH2]]; [now split|].
  cbn [map List.concat app asked flat_map existsb is_stop orb].
  split; assumption.
Qed.

Lemma save_answer_stdout (m : manager) (i : Z) (q a : str) (w : world) :
  exists tail, stdout (save_answer m i q a w) = stdout w ++ tail
               /\ asked tail = [] /\ existsb is_stop tail = false.
Proof.
  unfold save_answer. destruct (answers_file_path m).
  - exists []. now rewrite app_nil_r.
  - now exists [SaveError].
Qed.

(** What a call of the answer loop adds to the transcript. *)
Lemma answer_loop_events (m : manager) (i : Z) (q : str)
    (pending : list console) (w w' : world) (r : result bool) :
  getitem (questions m) i = Some q ->
  answer_loop m i pending w = (r, w') ->
  exists tail,
    stdout w' = stdout w ++ tail /\ asked tail = [] /\
    match r with
    | Ret true => existsb is_stop tail = false
    | Ret false => exists pre e, tail = pre ++ [e] /\ is_stop e = true
                                 /\ existsb is_stop pre = false
    | Stuck => existsb is_stop tail = false
    | Raise _ => False
    end.
Proof.
  intros Hq H.
  destruct (answer_loop_cases m i q pending w Hq) as [blanks [_ C]].
  fold (prompts_for blanks) in C. cbv zeta in C.
  destruct (prompts_quiet blanks) as [Qa Qs].
  destruct C as [[_ E]|[[rest [_ E]]|[[raw [rest [_ [_ E]]]]
                                     |[raw [rest [_ [_ [_ E]]]]]]]];
    rewrite E in H; injection H as <- <-; cbn [stdout].
  - exists (prompts_for blanks). repeat split; assumption.
  - exists (prompts_for blanks ++ [SessionInterrupted (i + 1)]).
    split; [reflexivity|]. split; [now rewrite asked_app, Qa|].
    exists (prompts_for blanks), (SessionInterrupted (i + 1)). now repeat split.
  - exists (prompts_for blanks ++ [SessionSaved (i + 1)]).
    split; [reflexivity|]. split; [now rewrite asked_app, Qa|].
    exists (prompts_for blanks), (SessionSaved (i + 1)). now repeat split.
  - destruct (save_answer_stdout m i q (recorded_answer raw)
                (World (files w) rest (stdout w ++ prompts_for blanks)))
      as [t [Et [Ta Ts]]].
    exists (prompts_for blanks ++ t ++ [AnswerSaved]).
    unfold print; cbn [stdout]. rewrite Et. cbn [stdout].
    split; [now rewrite <- !app_assoc|].
    split; [now rewrite !asked_app, Qa, Ta|].
    now rewrite !existsb_app, Qs, Ts.
Qed.

(** What a call of [ask_question] adds to the transcript: the question,
    then prompts and messages, a stop message last if it stops. *)
Lemma ask_question_events (m : manager) (i : Z) (q : str)
    (w w' : world) (r : result bool) :
  getitem (questions m) i = Some q ->
  ask_question m i w = (r, w') ->
  exists tail,
    stdout w' = stdout w
                ++ QuestionShown (i + 1) (List.length (questions m))
                     (display_text q) :: tail
    /\ asked tail = [] /\
    match r with
    | Ret true => existsb is_stop tail = false
    | Ret false => exists pre e, tail = pre ++ [e] /\ is_stop e = true
                                 /\ existsb is_stop pre = false
    | Stuck => existsb is_stop tail = false
    | Raise _ => False
    end.
Proof.
  intros Hq H. unfold ask_question in H. rewrite Hq in H.
  destruct (answer_loop_events m i q _ _ _ _ Hq H) as [tail [E R]].
  exists tail. split; [|exact R].
  rewrite E. unfold print; cbn [stdout]. now rewrite <- app_assoc.
Qed.

Lemma ask_question_missing (m : manager) (i : Z) (w : world) :
  getitem (questions m) i = None ->
  ask_question m i w = (Raise IndexError, w).
Proof. intros H. unfold ask_question. now rewrite H. Qed.

Lemma asked_shown (n : Z) (total : nat) (text : str) (tail : list event) :
  asked (QuestionShown n total text :: tail) = (n - 1) :: asked tail.
Proof. reflexivity. Qed.

(** The loop asks an initial segment of its indices, in order; a stop
    message, if there is one, is the last thing printed. *)
Lemma ask_each_events (m : manager) (indices : list Z) (w w' : world)
    (r : result unit) :
  ask_each m indices w = (r, w') ->
  exists tail n,
    stdout w' = stdout w ++ tail
    /\ asked tail = firstn n indices /\ (n <= List.length indices)%nat
    /\ (existsb is_stop tail = true ->
        r = Ret tt /\ exists pre e, tail = pre ++ [e] /\ is_stop e = true)
    /\ (r = Ret tt -> existsb is_stop tail = false ->
        n = List.length indices).
Proof.
  revert w. induction indices as [|i rest IH]; intros w H.
  - cbn [ask_each] in H. injection H as <- <-.
    exists [], 0%nat. rewrite app_nil_r. repeat split; try discriminate.
    lia.
  - cbn [ask_each] in H.
    destruct (getitem (questions m) i) as [q|] eqn:Hq.
    + destruct (ask_question m i w) as [ri wi] eqn:Ha.
      destruct (ask_question_events m i q w wi ri Hq Ha) as [t [Et [Ta R]]].
      destruct ri as [[|]|e|].
      * destruct (IH wi H) as [t2 [n [E2 [A2 [L2 [S2 C2]]]]]].
        exists (QuestionShown (i + 1) (List.length (questions m))
                  (display_text q) :: t ++ t2), (S n).
        split; [rewrite E2, Et, <- app_assoc; reflexivity|].
        split; [rewrite asked_shown, asked_app, Ta, A2; cbn [firstn app];
                f_equal; lia|].
        split; [cbn [List.length]; lia|].
        cbn [existsb is_stop orb]. rewrite existsb_app, R. cbn [orb].
        split.
        -- intros Hs. destruct (S2 Hs) as [-> [pre [e [-> He]]]].
           split; [reflexivity|].
           exists (QuestionShown (i + 1) (List.length (questions m))
                     (display_text q) :: t ++ pre), e.
           split; [|exact He]. cbn [app]. now rewrite <- app_assoc.
        -- intros Hr Hs. cbn [List.length]. f_equal. now apply C2.
      * injection H as <- <-.
        destruct R as [pre [e [-> [He Hp]]]].
        exists (QuestionShown (i + 1) (List.length (questions m))
                  (display_text q) :: pre ++ [e]), 1%nat.
        split; [exact Et|].
        split; [rewrite asked_shown, Ta; cbn [firstn]; f_equal; lia|].
        split; [cbn [List.length]; lia|].
        cbn [existsb is_stop orb]. rewrite existsb_app, Hp.
        cbn [existsb orb]. rewrite He. cbn [orb].
        split; [|discriminate].
        intros _. split; [reflexivity|].
        exists (QuestionShown (i + 1) (List.length (questions m))
                  (display_text q) :: pre), e.
        now split.
      * contradiction.
      * injection H as <- <-.
        exists (QuestionShown (i + 1) (List.length (questions m))
                  (display_text q) :: t), 1%nat.
        split; [exact Et|].
        split; [rewrite asked_shown, Ta; cbn [firstn]; f_equal; lia|].
        split; [cbn [List.length]; lia|].
        cbn [existsb is_stop orb]. rewrite R.
        split; discriminate.
    + rewrite (ask_question_missing m i w Hq) in H. injection H as <- <-.
      exists [], 0%nat. rewrite app_nil_r. repeat split; try discriminate.
      cbn [List.length]. lia.
Qed.

Lemma range_empty (a b : Z) : b <= a -> range a b = [].
Proof.
  intros H. unfold range. now replace (Z.to_nat (b - a)) with 0%nat by lia.
Qed.

Lemma range_cons (a b : Z) : a < b -> range a b = a :: range (a + 1) b.
Proof.
  intros H. unfold range.
  replace (Z.to_nat (b - a)) with (S (Z.to_nat (b - (a + 1)))) by lia.
  cbn [seq map]. f_equal; [lia|].
  rewrite <- seq_shift, map_map. apply map_ext. intros k. lia.
Qed.

Lemma range_length (a b : Z) : List.length (range a b) = Z.to_nat (b - a).
Proof. unfold range. now rewrite length_map, length_seq. Qed.

Lemma range_bounds (a b i : Z) : In i (range a b) -> a <= i < b.
Proof.
  unfold range. rewrite in_map_iff. intros [k [<- Hk]].
  apply in_seq in Hk. lia.
Qed.

End SessionFacts.

Module InvariantFacts.

Import Text Questionnaire Reading TextFacts LogFacts LineFacts AskFacts
       LoadFacts RecordFacts SessionFacts.
Local Open Scope Z_scope.

Lemma answer_loop_world (m : manager) (i : Z) (q : str)
    (pending : list console) (w w' : world) (r : result bool) :
  getitem (questions m) i = Some q ->
  answer_loop m i pending w = (r, w') ->
  (exists used, pending = used ++ stdin w')
  /\ (files w' = files w
      \/ exists raw, In (Line raw) pending
                     /\ files w' = files (save_answer m i q (recorded_answer raw) w)).
Proof.
  intros Hq H.
  destruct (answer_loop_cases m i q pending w Hq) as [blanks [_ C]].
  cbv zeta in C.
  destruct C as [[P E]|[[rest [P E]]|[[raw [rest [P [_ E]]]]
                                     |[raw [rest [P [_ [_ E]]]]]]]];
    rewrite E in H; injection H as <- <-.
  - split; [|now left]. exists pending. cbn [stdin]. now rewrite app_nil_r.
  - split; [|now left]. exists (map Line blanks ++ [CtrlC]). cbn [stdin].
    now rewrite P, <- app_assoc.
  - split; [|now left]. exists (map Line blanks ++ [Line raw]). cbn [stdin].
    now rewrite P, <- app_assoc.
  - split.
    + exists (map Line blanks ++ [Line raw]). unfold print; cbn [stdin].
      rewrite save_answer_stdin. cbn [stdin]. now rewrite P, <- app_assoc.
    + right. exists raw. split.
      * rewrite P. apply in_or_app. right. now left.
      * unfold print; cbn [files]. now apply save_answer_files.
Qed.

Lemma console_ok_suffix (used rest : list console) :
  console_ok (used ++ rest) -> console_ok rest.
Proof. unfold console_ok. rewrite Forall_app. tauto. Qed.

Lemma console_ok_line (pending : list console) (raw : str) :
  console_ok pending -> In (Line raw) pending -> line_free raw.
Proof.
  unfold console_ok. rewrite Forall_forall. intros H Hin.
  exact (H _ Hin).
Qed.

Lemma recorded_answer_line_free (raw : str) :
  line_free raw -> line_free (recorded_answer raw).
Proof.
  intros H. unfold recorded_answer.
  destruct (str_eqb _ _); [apply line_free_lit_skipped|].
  now apply line_free_strip.
Qed.

Lemma save_answer_keeps_log (m : manager) (path : str) (i : Z) (q a : str)
    (w : world) :
  answers_file_path m = Some path ->
  session_record (questions m) (i, q, a) ->
  written_by_sessions (questions m) (files w path) ->
  written_by_sessions (questions m) (files (save_answer m i q a w) path).
Proof.
  intros Hp Hr Hw. rewrite (save_answer_log m i q a path w Hp).
  unfold written_by_sessions in *.
  destruct (files w path) as [old|].
  - destruct Hw as [records [Hf ->]].
    exists (records ++ [(i, q, a)]). split.
    + apply Forall_app. split; [exact Hf | now constructor].
    + rewrite map_app, concat_app. cbn [map List.concat render].
      now rewrite app_nil_r.
  - exists [(i, q, a)]. split; [now constructor|].
    cbn [map List.concat render]. now rewrite app_nil_r.
Qed.

Lemma ask_question_keeps_log (m : manager) (path : str) (i : Z)
    (w w' : world) (r : result bool) :
  answers_file_path m = Some path -> 0 <= i ->
  console_ok (stdin w) ->
  written_by_sessions (questions m) (files w path) ->
  ask_question m i w = (r, w') ->
  console_ok (stdin w') /\ written_by_sessions (questions m) (files w' path).
Proof.
  intros Hp Hi Hc Hw H.
  destruct (getitem (questions m) i) as [q|] eqn:Hq.
  - unfold ask_question in H. rewrite Hq in H.
    destruct (answer_loop_world m i q _ _ _ _ Hq H) as [[used Hu] Hf].
    cbn [stdin print] in Hu. split.
    + rewrite Hu in Hc. now apply console_ok_suffix in Hc.
    + destruct Hf as [->|[raw [Hin ->]]]; [exact Hw|].
      apply save_answer_keeps_log; try assumption.
      split; [exact Hi|]. split; [exact Hq|].
      apply recorded_answer_line_free.
      now apply (console_ok_line (stdin w)).
  - rewrite (ask_question_missing m i w Hq) in H. injection H as <- <-.
    now split.
Qed.

Lemma ask_each_keeps_log (m : manager) (path : str) (indices : list Z)
    (w w' : world) (r : result unit) :
  answers_file_path m = Some path ->
  Forall (fun i => 0 <= i) indices ->
  console_ok (stdin w) ->
  written_by_sessions (questions m) (files w path) ->
  ask_each m indices w = (r, w') ->
  console_ok (stdin w') /\ written_by_sessions (questions m) (files w' path).
Proof.
  intros Hp Hi. revert w.
  induction Hi as [|i rest H0 _ IH]; intros w Hc Hw H; cbn [ask_each] in H.
  - injection H as <- <-. now split.
  - destruct (ask_question m i w) as [ri wi] eqn:Ha.
    destruct (ask_question_keeps_log m path i w wi ri Hp H0 Hc Hw Ha)
      as [Hc' Hw'].
    destruct ri as [[|]|e|]; [now apply (IH wi)|..];
      injection H as <- <-; now split.
Qed.

Lemma scan_lines_log (w : world) (m : manager) (path : str) :
  answers_file_path m = Some path ->
  get_last_answered_question m w = Ret (scan_lines (log_lines w path)).
Proof.
  intros H. unfold get_last_answered_question, log_lines. rewrite H.
  now destruct (files w path).
Qed.

Lemma session_keeps_log (m m' : manager) (w w' : world) (r : result unit) :
  console_ok (stdin w) ->
  written_by_sessions (questions m) (files w (answers_path m)) ->
  start_questionnaire_session m w = (r, m', w') ->
  written_by_sessions (questions m) (files w' (answers_path m)).
Proof.
  intros Hc Hw H. unfold start_questionnaire_session in H.
  destruct (match questions m with [] => false | _ => true end);
    cbn [negb] in H.
  2: { injection H as _ _ <-. exact Hw. }
  set (ms := set_answers_file_path (answers_path m) m) in H.
  assert (Hp : answers_file_path ms = Some (answers_path m)) by reflexivity.
  rewrite (scan_lines_log w ms _ Hp) in H.
  set (k := scan_lines (log_lines w (answers_path m))) in H.
  set (wb := if 0 <? k then _ else _) in H.
  assert (Fb : files wb = files w) by (unfold wb; now destruct (0 <? k)).
  assert (Sb : stdin wb = stdin w) by (unfold wb; now destruct (0 <? k)).
  cbn [stdin print] in H. rewrite Sb in H.
  destruct (stdin w) as [|[entered|] rest] eqn:Hin.
  - injection H as _ _ <-. cbn [files print]. now rewrite Fb.
  - destruct (ask_remaining ms k _) as [r1 w1] eqn:Hr.
    injection H as _ _ <-.
    unfold ask_remaining in Hr.
    destruct (ask_each ms _ _) as [r2 w2] eqn:He.
    assert (K : console_ok (stdin w2)
                /\ written_by_sessions (questions ms)
                     (files w2 (answers_path m))).
    { apply (ask_each_keeps_log ms (answers_path m) _ _ w2 r2 Hp) in He.
      - exact He.
      - apply Forall_forall. intros i Hi. apply range_bounds in Hi.
        pose proof (scan_lines_nonneg (log_lines w (answers_path m))).
        unfold k in Hi. lia.
      - cbn [stdin with_stdin]. now apply (console_ok_suffix [Line entered]).
      - cbn [files with_stdin print]. rewrite Fb. exact Hw. }
    destruct K as [_ K]. change (questions ms) with (questions m) in K.
    destruct r2; injection Hr as _ <-; [|exact K..].
    now destruct (k <? _).
  - injection H as _ _ <-. cbn [files with_stdin print]. now rewrite Fb.
Qed.

(** Sessions on console lines without line break write nothing but
    records of their own questions. *)
Lemma reachable_written (m : manager) (w : world) :
  reachable_on console_ok m w ->
  written_by_sessions (questions m) (files w (answers_path m)).
Proof.
  induction 1 as [w H|w w' pending r m' _ IH Hc Hs].
  - now rewrite H.
  - now apply (session_keeps_log m m' (with_stdin pending w) w' r).
Qed.

Lemma render_body (r : Z * str * str) :
  render r = (let '(i, q, a) := r in str_of_int i ++ 59%N :: q ++ 59%N :: a)
             ++ [10%N].
Proof. destruct r as [[i q] a]. apply record_line_body. Qed.

(** On a log of session records the resume offset is an index of the
    question list. *)
Lemma offset_of_session_log (qs : list str) (content : str) :
  Forall line_free qs ->
  written_by_sessions qs (Some content) ->
  0 <= scan_lines (readlines content)
  /\ (scan_lines (readlines content) = 0
      \/ scan_lines (readlines content) < Z.of_nat (List.length qs)).
Proof.
  intros Hqs [records [Hr ->]].
  split; [apply scan_lines_nonneg|].
  set (body := fun r : Z * str * str =>
                 let '(i, q, a) := r in str_of_int i ++ 59%N :: q ++ 59%N :: a).
  assert (E : map render records = map (fun b => b ++ [10%N]) (map body records)).
  { rewrite map_map. apply map_ext. intros r. apply render_body. }
  rewrite E, readlines_concat.
  - rewrite <- E, scan_lines_max.
    assert (I : indices_by record_index (map render records)
                = map (fun r => fst (fst r)) records).
    { clear. induction records as [|[[i q] a] rs IH]; [reflexivity|].
      cbn [map indices_by flat_map render]. fold (indices_by record_index (map render rs)).
      now rewrite record_index_record_line, IH. }
    rewrite I.
    destruct (max_in (map (fun r => fst (fst r)) records)) as [Z0|Hin];
      [now left | right].
    apply in_map_iff in Hin as [[[i q] a] [Ei Hin]]. cbn [fst] in Ei.
    rewrite <- Ei. rewrite Forall_forall in Hr.
    destruct (Hr _ Hin) as [H0 [Hg _]].
    rewrite getitem_nonneg in Hg by assumption.
    destruct (Z.ltb_spec i (Z.of_nat (List.length qs))); [lia | discriminate].
  - apply Forall_map. rewrite Forall_forall in *.
    intros [[i q] a] Hin. destruct (Hr _ Hin) as [_ [Hg Ha]].
    apply record_body_line_free; [|exact Ha].
    apply Hqs. now apply (getitem_In qs i).
Qed.

End InvariantFacts.

(** * The claims of the specification *)

Import Text Questionnaire Reading Examples.
Import TextFacts IntFacts LogFacts LineFacts AskFacts LoadFacts RecordFacts
       SessionFacts InvariantFacts.

(** ** Claim C1: the resume offset *)

(** Claim C1, as the code has it.  [get_last_answered_question] returns
    the greatest of 0 and the indices of the records in the log, and 0
    when the log is absent or holds no record.  A line is skipped
    exactly when it is blank, has fewer than two separators, or its first
    field is not an integer; every other line contributes its first
    field to the maximum.  The result does not depend on the order of
    the lines. *)
Theorem resume_offset_is_greatest_record_index
    (m : manager) (w : world) (path : str) :
  answers_file_path m = Some path ->
  get_last_answered_question m w
  = Ret (fold_right Z.max 0%Z (indices_by record_index (log_lines w path)))
  /\ (files w path = None -> get_last_answered_question m w = Ret 0%Z)
  /\ (indices_by record_index (log_lines w path) = [] ->
      get_last_answered_question m w = Ret 0%Z)
  /\ (forall lines, Permutation (log_lines w path) lines ->
      get_last_answered_question m w = Ret (scan_lines lines))
  /\ (forall line,
      record_index line = None <->
      blank line = true \/ (count_sep (strip line) < 2)%nat
      \/ int (first_field (strip line)) = None)
  /\ (forall last_id line,
      scan_line last_id line = match record_index line with
                               | Some i => Z.max last_id i
                               | None => last_id
                               end).
Proof.
  intros Hp. rewrite (scan_lines_log w m path Hp).
  split; [now rewrite scan_lines_max|].
  split; [intros H; unfold log_lines; now rewrite H|].
  split; [intros H; now rewrite scan_lines_max, H|].
  split; [intros lines H; now rewrite (scan_lines_perm _ _ H)|].
  split; [|apply scan_line_record].
  intros line. unfold record_index, index_with.
  destruct (blank line); [intuition|].
  destruct (Nat.ltb_spec (count_sep (strip line)) 2) as [Hc|Hc].
  - intuition.
  - split; [intros H; now right; right|].
    intros [H1|[H1|H1]]; [discriminate | lia | exact H1].
Qed.

(** A log with records for the indices 1, 0 and 2, in this order. *)
Lemma resume_offset_is_greatest_record_index_witness :
  answers_file_path three_questions_in_session
  = Some (answers_path three_questions)
  /\ get_last_answered_question three_questions_in_session
       (logged [lit "1;2. B?;b"; lit "0;1. A?;a"; lit "2;3. C?;c"] [])
     = Ret 2%Z.
Proof.
  split; [reflexivity|].
  destruct (resume_offset_is_greatest_record_index
              three_questions_in_session
              (logged [lit "1;2. B?;b"; lit "0;1. A?;a"; lit "2;3. C?;c"] [])
              (answers_path three_questions) eq_refl) as [H _].
  rewrite H. reflexivity.
Defined.

(** Claim C1 as stated fails: a line with one separator and an integer
    first field is skipped, although it has a separator. *)
Lemma one_separator_line_is_skipped :
  get_last_answered_question three_questions_in_session
    (logged [lit "5;foo"] []) = Ret 0%Z
  /\ claimed_offset
       (log_lines (logged [lit "5;foo"] []) (answers_path three_questions))
     = 5%Z.
Proof. split; reflexivity. Qed.

(** ** Claim C3: writing a record and reading it back *)

(** Claim C3, as the code has it.  When the question text holds no
    separator, question and answer hold no line break and the answer
    does not end in whitespace, appending the record to a log that is
    absent, empty or ends with a line break adds one line, and that
    line, trimmed and split at its first two separators, gives the
    decimal index, the question and the answer back; separators inside
    the answer are kept. *)
Theorem record_round_trip
    (m : manager) (w : world) (path : str) (i : Z) (q a : str) :
  answers_file_path m = Some path ->
  match files w path with
  | None => True
  | Some old => old = [] \/ last old 0%N = 10%N
  end ->
  ~ In 59%N q -> line_free q -> line_free a ->
  rstrip_by isspace a = a ->
  exists line,
    log_lines (save_answer m i q a w) path = log_lines w path ++ [line]
    /\ line = record_line i q a
    /\ split (lit ";") 2 (strip line) = [str_of_int i; q; a]
    /\ int (str_of_int i) = Some i.
Proof.
  intros Hp Hold Hsep Hq Ha Hr.
  exists (record_line i q a).
  split; [|split; [reflexivity|split; [|apply int_str_of_int]]].
  - unfold log_lines. rewrite (save_answer_log m i q a path w Hp).
    rewrite record_line_body.
    assert (Hb : line_free (str_of_int i ++ 59%N :: q ++ 59%N :: a))
      by now apply record_body_line_free.
    assert (Hh : hd 0%N ((str_of_int i ++ 59%N :: q ++ 59%N :: a) ++ [10%N])
                 <> 10%N).
    { destruct (str_of_int_shape i) as [c [t [E [Hc _]]]]. rewrite E.
      cbn [app hd]. intros ->. discriminate. }
    destruct (files w path) as [old|].
    + now apply readlines_append.
    + now apply (readlines_append []); [left|..].
  - rewrite strip_record_line, Hr. change (lit ";") with [59%N].
    apply split_three; [apply str_of_int_no_sep | exact Hsep].
Qed.

(** Index 7, a question without separator, an answer with two. *)
Lemma record_round_trip_witness :
  exists line,
    log_lines (save_answer three_questions_in_session 7 (lit "2. B?")
                 (lit "yes; no; maybe") (logged [lit "0;1. A?;a"] []))
      (answers_path three_questions)
    = log_lines (logged [lit "0;1. A?;a"] []) (answers_path three_questions)
      ++ [line]
    /\ line = record_line 7 (lit "2. B?") (lit "yes; no; maybe")
    /\ split (lit ";") 2 (strip line)
       = [str_of_int 7; lit "2. B?"; lit "yes; no; maybe"]
    /\ int (str_of_int 7) = Some 7%Z.
Proof.
  apply (record_round_trip three_questions_in_session
           (logged [lit "0;1. A?;a"] []) (answers_path three_questions)).
  - reflexivity.
  - right. reflexivity.
  - vm_compute. intuition discriminate.
  - split; vm_compute; intuition discriminate.
  - split; vm_compute; intuition discriminate.
  - reflexivity.
Defined.

(** Claim C3 as stated fails: a separator inside the question text
    moves the field boundaries. *)
Lemma separator_in_question_breaks_round_trip :
  split (lit ";") 2 (strip (record_line 0 (lit "a;b") (lit "c")))
  = [lit "0"; lit "a"; lit "b;c"]
  /\ split (lit ";") 2 (strip (record_line 0 (lit "a;b") (lit "c")))
     <> [str_of_int 0; lit "a;b"; lit "c"].
Proof. split; [reflexivity | vm_compute; discriminate]. Qed.

(** ** Claim C8: the resume offset stays within the question list *)

(** Claim C8, as the code has it.  In every world reached by running
    sessions over the question list of [m], whose questions hold no
    line break, on console lines that hold no line break either
    (neither LF nor CR), the resume offset computed from the log is at
    most the number of questions. *)
Theorem resume_offset_within_questions (m : manager) (w : world) :
  Forall line_free (questions m) ->
  reachable_on console_ok m w ->
  exists k,
    get_last_answered_question
      (set_answers_file_path (answers_path m) m) w = Ret k
    /\ (0 <= k <= Z.of_nat (List.length (questions m)))%Z.
Proof.
  intros Hq Hr. apply reachable_written in Hr.
  rewrite (scan_lines_log w (set_answers_file_path (answers_path m) m)
             (answers_path m) eq_refl).
  eexists. split; [reflexivity|].
  unfold log_lines. destruct (files w (answers_path m)) as [content|].
  - destruct (offset_of_session_log _ content Hq Hr) as [H0 [H|H]]; lia.
  - cbn. lia.
Qed.

(** Two sessions over the three questions: one answer and QUIT, then
    two answers and an interrupt. *)
Lemma resume_offset_within_questions_witness :
  exists w k,
    reachable_on console_ok three_questions w
    /\ get_last_answered_question three_questions_in_session w = Ret k
    /\ (0 <= k <= 3)%Z.
Proof.
  set (w1 := snd (start_questionnaire_session three_questions
                    (with_stdin [Line []; Line (lit "a"); Line (lit "quit")]
                       (fresh [])))).
  set (w2 := snd (start_questionnaire_session three_questions
                    (with_stdin [Line []; Line (lit "b"); Line (lit "c"); CtrlC]
                       w1))).
  assert (R : reachable_on console_ok three_questions w2).
  { apply reach_session
      with (w := w1) (pending := [Line []; Line (lit "b"); Line (lit "c"); CtrlC])
           (r := Ret tt) (m' := three_questions_in_session).
    - apply reach_session
        with (w := fresh [])
             (pending := [Line []; Line (lit "a"); Line (lit "quit")])
             (r := Ret tt) (m' := three_questions_in_session).
      + apply reach_fresh. reflexivity.
      + repeat constructor; vm_compute; intuition discriminate.
      + reflexivity.
    - repeat constructor; vm_compute; intuition discriminate.
    - reflexivity. }
  assert (Q : Forall line_free (questions three_questions))
    by (repeat constructor; vm_compute; intuition discriminate).
  destruct (resume_offset_within_questions three_questions w2 Q R)
    as [k [Hk Hb]].
  exists w2, k. split; [exact R|]. split; [exact Hk | exact Hb].
Defined.

(** Claim C8 as stated fails: an answer that holds a carriage return
    is written as it is and read back as two lines, the second of
    which counts as a record of its own.  After one session over three
    questions the resume offset is 99. *)
Lemma carriage_return_in_answer_escapes_the_list :
  reachable three_questions after_answer_with_cr
  /\ Forall line_free (questions three_questions)
  /\ files after_answer_with_cr (answers_path three_questions)
     = Some (lit "0;1. A?;x" ++ [13%N] ++ lit "99;a;b" ++ [10%N])
  /\ get_last_answered_question three_questions_in_session
       after_answer_with_cr = Ret 99%Z
  /\ (Z.of_nat (List.length (questions three_questions)) < 99)%Z.
Proof.
  split.
  { apply reach_session
      with (w := fresh [])
           (pending := [Line [];
                        Line (lit "x" ++ [13%N] ++ lit "99;a;b");
                        Line (lit "quit")])
           (r := Ret tt) (m' := three_questions_in_session).
    - apply reach_fresh. reflexivity.
    - exact I.
    - reflexivity. }
  split; [repeat constructor; vm_compute; intuition discriminate|].
  split; [reflexivity|]. split; [reflexivity|]. cbn. lia.
Qed.

(** ** Claim C2: where a resumed session starts *)

Lemma ask_remaining_first (m : manager) (k : Z) (q : str) (w w' : world)
    (r : result unit) :
  getitem (questions m) k = Some q ->
  (k < Z.of_nat (List.length (questions m)))%Z ->
  ask_remaining m k w = (r, w') ->
  exists tail,
    stdout w' = stdout w
                ++ QuestionShown (k + 1) (List.length (questions m))
                     (display_text q) :: tail.
Proof.
  intros Hq Hk H. unfold ask_remaining in H.
  rewrite (range_cons k _ Hk) in H. cbn [ask_each] in H.
  destruct (ask_question m k w) as [ri wi] eqn:Ha.
  destruct (ask_question_events m k q w wi ri Hq Ha) as [t [Et [_ R]]].
  assert (Done : forall w2 t2, stdout w2 = stdout wi ++ t2 ->
            exists tail,
              stdout (if (k <? Z.of_nat (List.length (questions m)))%Z
                      then print (QuestionnaireCompleted
                                    (List.length (questions m))) w2
                      else w2)
              = stdout w
                ++ QuestionShown (k + 1) (List.length (questions m))
                     (display_text q) :: tail).
  { intros w2 t2 E2. destruct (k <? _)%Z; unfold print; cbn [stdout];
      rewrite E2, Et, <- ?app_assoc; cbn [app]; eexists; reflexivity. }
  destruct ri as [[|]|e|].
  - destruct (ask_each m _ wi) as [r2 w2] eqn:He.
    destruct (ask_each_events m _ wi w2 r2 He) as [t2 [n [E2 _]]].
    destruct r2; injection H as <- <-.
    + now apply (Done w2 t2).
    + rewrite E2, Et, <- app_assoc. cbn [app]. eexists; reflexivity.
    + rewrite E2, Et, <- app_assoc. cbn [app]. eexists; reflexivity.
  - injection H as <- <-. apply (Done wi []). now rewrite app_nil_r.
  - contradiction.
  - injection H as <- <-. now exists t.
Qed.

(** Claim C2.  When the greatest index recorded in the log is [k]
    (0 for a log without record), an index of the question list, and
    the user confirms the start, the
    session begins with the question at index [k]: the first question
    shown carries the number [k + 1] and the text of [questions[k]].
    The index after the last answered one is not where it starts. *)
Theorem session_resumes_at_last_answered
    (m : manager) (w : world) (k : Z) (entered : str) (rest : list console) :
  fold_right Z.max 0%Z
    (indices_by record_index (log_lines w (answers_path m))) = k ->
  (k < Z.of_nat (List.length (questions m)))%Z ->
  stdin w = Line entered :: rest ->
  exists q r m' w' tail,
    getitem (questions m) k = Some q
    /\ start_questionnaire_session m w = (r, m', w')
    /\ stdout w'
       = stdout w
         ++ [if (0 <? k)%Z then ResumingSession k
             else StartingNewSession (List.length (questions m));
             Instructions (answers_path m); EnterPrompt;
             QuestionShown (k + 1) (List.length (questions m))
               (display_text q)]
         ++ tail
    /\ hd_error (asked (skipn (List.length (stdout w)) (stdout w')))
       = Some k.
Proof.
  intros Hmax Hlt Hin.
  assert (Hk : get_last_answered_question
                 (set_answers_file_path (answers_path m) m) w = Ret k).
  { rewrite (scan_lines_log w (set_answers_file_path (answers_path m) m)
               (answers_path m) eq_refl).
    now rewrite scan_lines_max, Hmax. }
  assert (H0 : (0 <= k)%Z).
  { rewrite <- Hmax, <- scan_lines_max. apply scan_lines_nonneg. }
  destruct (getitem_Some (questions m) k (conj H0 Hlt)) as [q Hq].
  assert (NE : match questions m with [] => false | _ => true end = true).
  { destruct (questions m); [cbn in Hlt; lia | reflexivity]. }
  unfold start_questionnaire_session. rewrite NE.
  cbn [negb]. rewrite Hk.
  change (questions (set_answers_file_path (answers_path m) m))
    with (questions m).
  set (banner := if (0 <? k)%Z then ResumingSession k
                 else StartingNewSession (List.length (questions m))).
  replace (if (0 <? k)%Z
           then print (ResumingSession k) w
           else print (StartingNewSession (List.length (questions m))) w)
    with (print banner w) by (unfold banner; now destruct (0 <? k)%Z).
  cbn [stdin print]. rewrite Hin.
  destruct (ask_remaining _ k _) as [r w'] eqn:Hr.
  destruct (ask_remaining_first
              (set_answers_file_path (answers_path m) m) k q _ w' r Hq Hlt Hr)
    as [tail Et].
  cbn [stdout with_stdin print] in Et.
  change (questions (set_answers_file_path (answers_path m) m))
    with (questions m) in Et.
  exists q, r, (set_answers_file_path (answers_path m) m), w', tail.
  split; [exact Hq|]. split; [reflexivity|].
  assert (E : stdout w'
              = stdout w
                ++ [banner; Instructions (answers_path m); EnterPrompt;
                    QuestionShown (k + 1) (List.length (questions m))
                      (display_text q)] ++ tail).
  { rewrite Et, <- !app_assoc. reflexivity. }
  split; [exact E|].
  rewrite E, skipn_app, skipn_all, Nat.sub_diag. cbn [app skipn].
  unfold banner. destruct (0 <? k)%Z; cbn [asked flat_map app hd_error];
    f_equal; lia.
Qed.

(** Scenario B of the specification: the log holds the single line
    [0;1. A?;I like A]; the resumed session shows question 1 again. *)
Lemma session_resumes_at_last_answered_witness :
  fold_right Z.max 0%Z
    (indices_by record_index
       (log_lines (logged [lit "0;1. A?;I like A"] [Line []])
          (answers_path three_questions))) = 0%Z
  /\ (0 < Z.of_nat (List.length (questions three_questions)))%Z
  /\ exists q r m' w' tail,
       getitem (questions three_questions) 0 = Some q
       /\ start_questionnaire_session three_questions
            (logged [lit "0;1. A?;I like A"] [Line []]) = (r, m', w')
       /\ stdout w'
          = stdout (logged [lit "0;1. A?;I like A"] [Line []])
            ++ [if (0 <? 0)%Z then ResumingSession 0
                else StartingNewSession
                       (List.length (questions three_questions));
                Instructions (answers_path three_questions); EnterPrompt;
                QuestionShown (0 + 1)
                  (List.length (questions three_questions))
                  (display_text q)]
            ++ tail
       /\ hd_error (asked (skipn (List.length
                                    (stdout (logged [lit "0;1. A?;I like A"]
                                               [Line []])))
                             (stdout w')))
          = Some 0%Z.
Proof.
  split; [reflexivity|]. split; [reflexivity|].
  apply (session_resumes_at_last_answered three_questions
           (logged [lit "0;1. A?;I like A"] [Line []]) 0 [] []);
    reflexivity.
Defined.

(** ** Claim C5: the loop over the remaining questions *)

(** Claim C5, as the code has it.  The session asks the questions at
    the indices from the resume offset upwards, in increasing order and
    none beyond the last; once [ask_question] has reported a stop no
    further question is asked; when no stop is reported and the loop
    returns, every remaining index has been asked and, if there was one
    at least, the completion message closes the transcript.  With a
    resume offset at or beyond the number of questions nothing is asked
    and nothing is printed, and the session returns normally. *)
Theorem remaining_questions_asked_in_order
    (m : manager) (start : Z) (w w' : world) (r : result unit) :
  ask_remaining m start w = (r, w') ->
  exists tail,
    stdout w' = stdout w ++ tail
    /\ (exists n,
         asked tail
         = firstn n (range start (Z.of_nat (List.length (questions m)))))
    /\ (existsb is_stop tail = true ->
        r = Ret tt
        /\ exists pre e post,
             tail = pre ++ e :: post /\ is_stop e = true /\ asked post = [])
    /\ (r = Ret tt -> existsb is_stop tail = false ->
        asked tail = range start (Z.of_nat (List.length (questions m)))
        /\ ((start < Z.of_nat (List.length (questions m)))%Z ->
            exists pre,
              tail = pre ++ [QuestionnaireCompleted
                               (List.length (questions m))]))
    /\ ((Z.of_nat (List.length (questions m)) <= start)%Z ->
        r = Ret tt /\ w' = w).
Proof.
  intros H. unfold ask_remaining in H.
  set (total := Z.of_nat (List.length (questions m))) in *.
  destruct (ask_each m (range start total) w) as [r2 w2] eqn:He.
  assert (Deg : (total <= start)%Z -> r = Ret tt /\ w' = w).
  { intros Hd. rewrite (range_empty _ _ Hd) in He. cbn [ask_each] in He.
    injection He as <- <-.
    destruct (Z.ltb_spec start total); [lia|]. now injection H as <- <-. }
  destruct (ask_each_events m _ w w2 r2 He) as [t [n [Et [At [Ln [St Ct]]]]]].
  destruct r2 as [u|e|].
  - injection H as <- <-.
    destruct (Z.ltb_spec start total) as [Hlt|Hge].
    + exists (t ++ [QuestionnaireCompleted (List.length (questions m))]).
      split; [unfold print; cbn [stdout]; now rewrite Et, <- app_assoc|].
      rewrite asked_app, existsb_app, app_nil_r, orb_false_r.
      split; [now exists n|]. split; [|split; [|intros; lia]].
      * intros Hs. destruct (St Hs) as [_ [pre [e [-> He']]]].
        split; [reflexivity|].
        exists pre, e, [QuestionnaireCompleted (List.length (questions m))].
        split; [now rewrite <- app_assoc | now split].
      * intros _ Hs. split; [|now exists t].
        rewrite At. destruct u. rewrite (Ct eq_refl Hs). apply firstn_all.
    + exists t. split; [exact Et|]. split; [now exists n|].
      split; [|split; [|exact Deg]].
      * intros Hs. destruct (St Hs) as [_ [pre [e [-> He']]]].
        split; [reflexivity|]. exists pre, e, []. now repeat split.
      * intros _ Hs. split; [|lia].
        rewrite At. destruct u. rewrite (Ct eq_refl Hs). apply firstn_all.
  - injection H as <- <-. exists t. split; [exact Et|].
    split; [now exists n|]. split; [|split; [discriminate | exact Deg]].
    intros Hs. destruct (St Hs) as [F _]. discriminate.
  - injection H as <- <-. exists t. split; [exact Et|].
    split; [now exists n|]. split; [|split; [discriminate | exact Deg]].
    intros Hs. destruct (St Hs) as [F _]. discriminate.
Qed.

(** Three questions from offset 1: an answer for the second question,
    a skip for the third. *)
Lemma remaining_questions_asked_in_order_witness :
  exists r w',
    ask_remaining three_questions_in_session 1
      (fresh [Line (lit "b"); Line (lit "skip")]) = (r, w')
    /\ r = Ret tt
    /\ asked (stdout w') = [1; 2]%Z
    /\ last (stdout w') AskError = QuestionnaireCompleted 3.
Proof.
  destruct (ask_remaining three_questions_in_session 1
              (fresh [Line (lit "b"); Line (lit "skip")])) as [r w'] eqn:E.
  destruct (remaining_questions_asked_in_order
              three_questions_in_session 1 _ w' r E) as [tail [Et _]].
  exists r, w'. split; [reflexivity|].
  vm_compute in E. injection E as <- <-. now repeat split.
Defined.

(** Claim C5 as stated fails: with the resume offset at the number of
    questions the loop has nothing to do, and no completion is
    reported. *)
Lemma nothing_left_reports_nothing :
  exists m' w',
    start_questionnaire_session three_questions
      (logged [lit "3;4. D?;d"] [Line []]) = (Ret tt, m', w')
    /\ stdout w' = [ResumingSession 3;
                    Instructions (answers_path three_questions);
                    EnterPrompt]
    /\ ~ In (QuestionnaireCompleted 3) (stdout w').
Proof.
  eexists. eexists. split; [reflexivity|]. split; [reflexivity|].
  cbn. intuition discriminate.
Qed.

(** What the code prints when the loop is left by QUIT: the stop
    message is followed by the completion message all the same, since
    the closing test only compares the resume offset with the number of
    questions. *)
Remark completion_message_follows_quit :
  stdout (snd (start_questionnaire_session three_questions
                 (fresh [Line []; Line (lit "quit")])))
  = [StartingNewSession 3; Instructions (answers_path three_questions);
     EnterPrompt; QuestionShown 1 3 (lit "A?"); AnswerPrompt;
     SessionSaved 1; QuestionnaireCompleted 3].
Proof. reflexivity. Qed.

(** ** Claim C4: the command QUIT *)

(** QUIT in any letter case, with or without blanks around it, ends the
    question: [ask_question] returns [False] and leaves every file as
    it was; only the transcript and the console advance. *)
Lemma quit_appends_nothing (m : manager) (i : Z) (q raw : str)
    (rest : list console) (w : world) :
  getitem (questions m) i = Some q ->
  upper (strip raw) = lit "QUIT" ->
  stdin w = Line raw :: rest ->
  ask_question m i w
  = (Ret false,
     World (files w) rest
       (stdout w ++ [QuestionShown (i + 1) (List.length (questions m))
                       (display_text q);
                     AnswerPrompt; SessionSaved (i + 1)])).
Proof.
  intros Hq Hquit Hin. unfold ask_question. rewrite Hq.
  cbn [stdin print]. rewrite Hin, (answer_loop_quit _ _ _ _ _ Hquit).
  unfold print, with_stdin; cbn [files stdin stdout].
  now rewrite <- !app_assoc.
Qed.

(** Claim C4 at its failing input.  A first session over three
    questions answers the first and meets QUIT on the second: the log
    holds the record of index 0 only and the message names question 2
    as the place to resume.  The next session nevertheless shows the
    question at index 0 first. *)
Theorem quit_resumes_one_question_back :
  let first :=
    snd (start_questionnaire_session three_questions
           (fresh [Line []; Line (lit "I like A"); Line (lit "QUIT")])) in
  let second :=
    snd (start_questionnaire_session three_questions
           (World (files first) [Line []] [])) in
  files first (answers_path three_questions)
  = Some (text_of [lit "0;1. A?;I like A"])
  /\ asked (stdout first) = [0; 1]%Z
  /\ In (SessionSaved 2) (stdout first)
  /\ hd_error (asked (stdout second)) = Some 0%Z.
Proof.
  cbv zeta. split; [reflexivity|]. split; [reflexivity|].
  split; [|reflexivity].
  vm_compute. tauto.
Qed.

(** ** Claims C7 and C9: what [ask_question] records *)

(** The only way [ask_question] returns [True]: after some blank
    lines, a line that is neither blank nor QUIT, whose answer is
    appended to the log together with the stored question. *)
Lemma ask_question_continue (m : manager) (i : Z) (path : str)
    (w w' : world) :
  answers_file_path m = Some path ->
  ask_question m i w = (Ret true, w') ->
  exists q blanks raw rest,
    getitem (questions m) i = Some q
    /\ stdin w = map Line blanks ++ Line raw :: rest
    /\ Forall (fun b => strip b = []) blanks
    /\ strip raw <> [] /\ upper (strip raw) <> lit "QUIT"
    /\ stdin w' = rest
    /\ stdout w'
       = stdout w
         ++ QuestionShown (i + 1) (List.length (questions m)) (display_text q)
            :: prompts_for blanks ++ [AnswerSaved]
    /\ files w' path
       = Some (match files w path with
               | Some old => old ++ record_line i q (recorded_answer raw)
               | None => record_line i q (recorded_answer raw)
               end).
Proof.
  intros Hp H. unfold ask_question in H.
  destruct (getitem (questions m) i) as [q|] eqn:Hq; [|discriminate].
  destruct (answer_loop_cases m i q (stdin w) (print (QuestionShown (i + 1)
              (List.length (questions m)) (display_text q)) w) Hq)
    as [blanks [Hb C]].
  cbn [stdin print] in H.
  fold (prompts_for blanks) in C. cbv zeta in C.
  destruct C as [[_ E]|[[rest [_ E]]|[[raw [rest [_ [_ E]]]]
                                     |[raw [rest [P [H1 [H2 E]]]]]]]];
    rewrite E in H; try discriminate.
  injection H as <-.
  exists q, blanks, raw, rest.
  split; [reflexivity|]. split; [exact P|]. split; [exact Hb|].
  split; [exact H1|]. split; [exact H2|].
  split; [unfold print; cbn [stdin]; now rewrite save_answer_stdin|].
  split.
  - unfold print, save_answer, append_file. rewrite Hp. cbn [stdout].
    now rewrite <- !app_assoc.
  - unfold print at 1. cbn [files].
    now rewrite (save_answer_log m i q _ path _ Hp).
Qed.

(** Claim C7, as the code has it.  Whenever [ask_question] returns
    [True], the record it appended holds the stored question text as it
    is in the question list, also when the text shown had its number
    removed, and the answer is the sentinel when the trimmed input is
    SKIP in any letter case and the trimmed input otherwise; the
    trimmed input is not empty. *)
Theorem continue_records_question_and_trimmed_answer
    (m : manager) (i : Z) (path : str) (w w' : world) :
  answers_file_path m = Some path ->
  ask_question m i w = (Ret true, w') ->
  exists q blanks raw rest,
    getitem (questions m) i = Some q
    /\ stdin w = map Line blanks ++ Line raw :: rest
    /\ Forall (fun b => strip b = []) blanks
    /\ strip raw <> []
    /\ In (QuestionShown (i + 1) (List.length (questions m)) (display_text q))
          (stdout w')
    /\ files w' path
       = Some (match files w path with Some old => old | None => [] end
               ++ record_line i q
                    (if str_eqb (upper (strip raw)) (lit "SKIP")
                     then lit "[SKIPPED]" else strip raw))
    /\ (any_case (lit "SKIP") raw ->
        str_eqb (upper (strip raw)) (lit "SKIP") = true).
Proof.
  intros Hp H.
  destruct (ask_question_continue m i path w w' Hp H)
    as [q [blanks [raw [rest [Hq [Hin [Hb [H1 [_ [_ [Ho Hf]]]]]]]]]]].
  exists q, blanks, raw, rest.
  split; [exact Hq|]. split; [exact Hin|]. split; [exact Hb|].
  split; [exact H1|]. split; [|split].
  - rewrite Ho. apply in_or_app. right. now left.
  - rewrite Hf. unfold recorded_answer. now destruct (files w path).
  - intros Hc. apply str_eqb_eq.
    apply CaseFacts.upper_strip_any_case;
      [apply CaseFacts.upper_letters_skip | exact Hc].
Qed.

(** The second question, answered with [sKiP] after an empty line. *)
Lemma continue_records_question_and_trimmed_answer_witness :
  exists w',
    answers_file_path three_questions_in_session
    = Some (answers_path three_questions)
    /\ ask_question three_questions_in_session 1
         (logged [lit "0;1. A?;a"] [Line []; Line (lit "sKiP")])
       = (Ret true, w')
    /\ In (QuestionShown 2 3 (lit "B?")) (stdout w')
    /\ files w' (answers_path three_questions)
       = Some (text_of [lit "0;1. A?;a"; lit "1;2. B?;[SKIPPED]"]).
Proof.
  destruct (ask_question three_questions_in_session 1
              (logged [lit "0;1. A?;a"] [Line []; Line (lit "sKiP")]))
    as [r w'] eqn:E.
  assert (R : r = Ret true) by (vm_compute in E; now injection E as <- _).
  subst r. exists w'. split; [reflexivity|]. split; [reflexivity|].
  destruct (continue_records_question_and_trimmed_answer
              three_questions_in_session 1 (answers_path three_questions)
              _ w' eq_refl E)
    as [q [blanks [raw [rest [Hq [_ [_ [_ [Hs _]]]]]]]]].
  vm_compute in Hq. injection Hq as <-.
  split; [exact Hs|].
  vm_compute in E. injection E as <-. reflexivity.
Defined.

(** Claim C7 as stated fails: an input with blanks around it is
    recorded without them, not as entered. *)
Lemma answer_is_recorded_trimmed :
  exists w',
    ask_question three_questions_in_session 0 (fresh [Line (lit " hello ")])
    = (Ret true, w')
    /\ files w' (answers_path three_questions)
       = Some (record_line 0 (lit "1. A?") (lit "hello"))
    /\ record_line 0 (lit "1. A?") (lit "hello")
       <> record_line 0 (lit "1. A?") (lit " hello ").
Proof.
  eexists. split; [reflexivity|]. split; [reflexivity|].
  vm_compute. discriminate.
Qed.

(** Claim C9.  An empty input, or one of whitespace only, is turned
    down: nothing is written, the same question goes on waiting for the
    next input, which is prompted for anew, and no exception is
    raised. *)
Theorem empty_input_asks_again
    (m : manager) (i : Z) (q raw : str) (rest : list console) (w : world) :
  getitem (questions m) i = Some q ->
  strip raw = [] ->
  stdin w = Line raw :: rest ->
  exists w1,
    ask_question m i w = answer_loop m i rest w1
    /\ files w1 = files w
    /\ stdin w1 = rest
    /\ stdout w1
       = stdout w ++ [QuestionShown (i + 1) (List.length (questions m))
                        (display_text q);
                      AnswerPrompt; PleaseProvideAnswer]
    /\ (exists tail,
         stdout (snd (ask_question m i w)) = stdout w1 ++ AnswerPrompt :: tail)
    /\ (forall e, fst (ask_question m i w) <> Raise e).
Proof.
  intros Hq Hs Hin.
  set (w1 := World (files w) rest
               (stdout w ++ [QuestionShown (i + 1) (List.length (questions m))
                               (display_text q);
                             AnswerPrompt; PleaseProvideAnswer])).
  assert (E : ask_question m i w = answer_loop m i rest w1).
  { unfold ask_question. rewrite Hq. cbn [stdin print]. rewrite Hin.
    rewrite (answer_loop_blank _ _ _ _ _ Hs). f_equal.
    unfold w1, print, with_stdin; cbn [files stdin stdout].
    now rewrite <- !app_assoc. }
  exists w1. split; [exact E|]. repeat (split; [reflexivity|]).
  clearbody w1. rewrite E. destruct (answer_loop m i rest w1) as [r w2] eqn:L.
  destruct (answer_loop_cases m i q rest w1 Hq) as [blanks [_ C]].
  fold (prompts_for blanks) in C. cbv zeta in C.
  assert (P : exists t, prompts_for blanks = AnswerPrompt :: t).
  { unfold prompts_for. destruct blanks; cbn; eexists; reflexivity. }
  destruct P as [t Pt]. rewrite Pt in C.
  destruct C as [[_ E2]|[[rest2 [_ E2]]|[[raw2 [rest2 [_ [_ E2]]]]
                                       |[raw2 [rest2 [_ [_ [_ E2]]]]]]]];
    rewrite E2 in L; injection L as <- <-; cbn [fst snd stdout];
    (split; [|discriminate]).
  - now exists t.
  - cbn [app]. eexists; reflexivity.
  - cbn [app]. eexists; reflexivity.
  - destruct (save_answer_stdout m i q (recorded_answer raw2)
                (World (files w1) rest2 (stdout w1 ++ AnswerPrompt :: t)))
      as [t2 [Et _]].
    unfold print; cbn [stdout]. rewrite Et. cbn [stdout].
    rewrite <- !app_assoc. cbn [app]. eexists; reflexivity.
Qed.

(** Scenario E of the specification: ENTER with no text on the first
    question, then nothing more on the console. *)
Lemma empty_input_asks_again_witness :
  exists w1,
    ask_question three_questions_in_session 0 (fresh [Line []])
    = answer_loop three_questions_in_session 0 [] w1
    /\ files w1 (answers_path three_questions) = None
    /\ stdout w1 = [QuestionShown 1 3 (lit "A?"); AnswerPrompt;
                    PleaseProvideAnswer]
    /\ fst (ask_question three_questions_in_session 0 (fresh [Line []]))
       = Stuck.
Proof.
  destruct (empty_input_asks_again three_questions_in_session 0
              (lit "1. A?") [] [] (fresh [Line []]) eq_refl eq_refl eq_refl)
    as [w1 [E [Hf [_ [Ho _]]]]].
  exists w1. split; [exact E|]. split; [now rewrite Hf|].
  split; [exact Ho | reflexivity].
Defined.

(** ** Claims C6 and C10: loading the questions *)

(** Claim C6, as the code has it.  From a questions file that exists,
    [load_questions] keeps the lines that are not blank, in their
    order and trimmed, and drops exactly the empty and whitespace-only
    ones, so that it loads as many questions as there are non-blank
    lines.  It reports success also when no line is left; the empty
    list is turned away when the session starts. *)
Theorem load_questions_keeps_nonblank_lines
    (m : manager) (suffix content : str) (w : world) :
  files w (lit "600Q_" ++ suffix ++ lit ".txt") = Some content ->
  exists m' w',
    load_questions m suffix w = (true, m', w')
    /\ questions m'
       = map strip (filter (fun line => negb (blank line)) (readlines content))
    /\ List.length (questions m')
       = List.length (filter (fun line => negb (blank line))
                        (readlines content))
    /\ stdout w' = stdout w ++ [QuestionsLoaded (List.length (questions m'))]
    /\ (Forall (fun line => blank line = true) (readlines content) ->
        questions m' = []
        /\ forall ws, start_questionnaire_session m' ws
                      = (Ret tt, m', print NoQuestionsLoaded ws)).
Proof.
  intros H. rewrite (load_questions_found m suffix content w H).
  eexists. eexists. split; [reflexivity|]. cbn [questions].
  split; [reflexivity|]. split; [apply length_map|].
  split; [unfold print; cbn [stdout]; now rewrite length_map|].
  intros Hb.
  assert (E : filter (fun line => negb (blank line)) (readlines content) = []).
  { induction Hb as [|l ls Hl _ IH]; [reflexivity|].
    cbn [filter]. now rewrite Hl. }
  rewrite E. split; [reflexivity|]. intros ws.
  unfold start_questionnaire_session. cbn [questions map negb]. reflexivity.
Qed.

(** A file of four lines, two of them blank. *)
Lemma load_questions_keeps_nonblank_lines_witness :
  exists m' w',
    load_questions init (lit "ingles")
      (World (one_file (lit "600Q_ingles.txt")
                (text_of [lit "  1. A?"; []; lit "   "; lit "2. B? "]))
         [] [])
    = (true, m', w')
    /\ questions m' = [lit "1. A?"; lit "2. B?"]
    /\ stdout w' = [QuestionsLoaded 2].
Proof.
  destruct (load_questions_keeps_nonblank_lines init (lit "ingles")
              (text_of [lit "  1. A?"; []; lit "   "; lit "2. B? "])
              (World (one_file (lit "600Q_ingles.txt")
                        (text_of [lit "  1. A?"; []; lit "   "; lit "2. B? "]))
                 [] [])
              eq_refl)
    as [m' [w' [E [Hq [_ [Ho _]]]]]].
  exists m', w'. split; [exact E|].
  split; [rewrite Hq; reflexivity|].
  rewrite Ho, Hq. reflexivity.
Defined.

(** Claim C6 as stated fails: a file of blank lines loads with
    success, as an empty list of questions. *)
Lemma blank_file_loads_successfully :
  exists m' w',
    load_questions init (lit "ingles")
      (World (one_file (lit "600Q_ingles.txt") (text_of [[]; lit "  "]))
         [] [])
    = (true, m', w')
    /\ questions m' = []
    /\ stdout w' = [QuestionsLoaded 0].
Proof. eexists. eexists. repeat split. Qed.

(** Claim C10.  Every loaded question is a non-blank line of the file
    with the whitespace at both ends removed: it is not empty and
    neither begins nor ends with whitespace; and the question field of
    a record written later is such a trimmed line. *)
Theorem loaded_questions_are_trimmed
    (m : manager) (suffix content : str) (w : world) :
  files w (lit "600Q_" ++ suffix ++ lit ".txt") = Some content ->
  exists m' w',
    load_questions m suffix w = (true, m', w')
    /\ questions m'
       = map strip (filter (fun line => negb (blank line)) (readlines content))
    /\ Forall (fun q => exists c t,
                 q = c :: t /\ isspace c = false
                 /\ isspace (last q c) = false) (questions m')
    /\ (forall i path wa wb,
        answers_file_path m' = Some path ->
        ask_question m' i wa = (Ret true, wb) ->
        exists line answer,
          In line (readlines content) /\ blank line = false
          /\ files wb path
             = Some (match files wa path with Some old => old | None => [] end
                     ++ record_line i (strip line) answer)).
Proof.
  intros H. rewrite (load_questions_found m suffix content w H).
  eexists. eexists. split; [reflexivity|]. cbn [questions].
  split; [reflexivity|]. split.
  - apply Forall_map, Forall_forall. intros line Hin.
    apply filter_In in Hin as [_ Hb]. apply negb_true_iff in Hb.
    destruct (strip_shape line Hb) as [c [t [E [Hc Hl]]]].
    exists c, t. now rewrite <- E.
  - intros i path wa wb Hp Ha.
    destruct (ask_question_continue _ i path wa wb Hp Ha)
      as [q [_ [raw [_ [Hq [_ [_ [_ [_ [_ [_ Hf]]]]]]]]]]].
    apply getitem_In in Hq. cbn [questions] in Hq.
    apply in_map_iff in Hq as [line [<- Hin]].
    apply filter_In in Hin as [Hin Hb]. apply negb_true_iff in Hb.
    exists line, (recorded_answer raw).
    split; [exact Hin|]. split; [exact Hb|].
    rewrite Hf. now destruct (files wa path).
Qed.

(** The same file: both questions come out without the blanks that
    surround them in the file. *)
Lemma loaded_questions_are_trimmed_witness :
  exists m' w',
    load_questions init (lit "ingles")
      (World (one_file (lit "600Q_ingles.txt")
                (text_of [lit "  1. A?"; []; lit "   "; lit "2. B? "]))
         [] [])
    = (true, m', w')
    /\ questions m' = [lit "1. A?"; lit "2. B?"]
    /\ Forall (fun q => exists c t,
                 q = c :: t /\ isspace c = false
                 /\ isspace (last q c) = false) (questions m').
Proof.
  destruct (loaded_questions_are_trimmed init (lit "ingles")
              (text_of [lit "  1. A?"; []; lit "   "; lit "2. B? "])
              (World (one_file (lit "600Q_ingles.txt")
                        (text_of [lit "  1. A?"; []; lit "   "; lit "2. B? "]))
                 [] [])
              eq_refl)
    as [m' [w' [E [Hq [Hf _]]]]].
  exists m', w'. split; [exact E|].
  split; [rewrite Hq; reflexivity | exact Hf].
Defined.

(** * Further properties of the program *)

Module SummaryFacts.

Import Text Questionnaire Reading Ledger.
Import TextFacts IntFacts LogFacts LineFacts AskFacts LoadFacts RecordFacts
       SessionFacts InvariantFacts.
Local Open Scope Z_scope.

(** The two ways a call of [ask_question] on a question of the list
    can end: a record is appended and it returns [True], or no file
    changes and it does not return [True].  It never raises. *)
Lemma ask_question_outcome (m : manager) (i : Z) (q path : str)
    (w w' : world) (r : result bool) :
  answers_file_path m = Some path ->
  getitem (questions m) i = Some q ->
  ask_question m i w = (r, w') ->
  (exists used, stdin w = used ++ stdin w')
  /\ (forall e, r <> Raise e)
  /\ ((r = Ret true
       /\ exists raw,
            In (Line raw) (stdin w)
            /\ files w' path
               = Some (log_text w path
                       ++ record_line i q (recorded_answer raw))
            /\ forall p, p <> path -> files w' p = files w p)
      \/ (r <> Ret true /\ files w' = files w)).
Proof.
  intros Hp Hq H. unfold ask_question in H. rewrite Hq in H.
  cbn [stdin print] in H.
  destruct (answer_loop_cases m i q (stdin w)
              (print (QuestionShown (i + 1) (List.length (questions m))
                        (display_text q)) w) Hq) as [blanks [_ C]].
  cbv zeta in C.
  destruct C as [[P E]|[[rest [P E]]|[[raw [rest [P [_ E]]]]
                                     |[raw [rest [P [_ [_ E]]]]]]]];
    rewrite E in H; injection H as <- <-.
  - split; [exists (stdin w); cbn [stdin]; now rewrite app_nil_r|].
    split; [discriminate|]. right. split; [discriminate | reflexivity].
  - split; [exists (map Line blanks ++ [CtrlC]); cbn [stdin];
            now rewrite P, <- app_assoc|].
    split; [discriminate|]. right. split; [discriminate | reflexivity].
  - split; [exists (map Line blanks ++ [Line raw]); cbn [stdin];
            now rewrite P, <- app_assoc|].
    split; [discriminate|]. right. split; [discriminate | reflexivity].
  - split; [exists (map Line blanks ++ [Line raw]); unfold print;
            cbn [stdin]; rewrite save_answer_stdin; cbn [stdin];
            now rewrite P, <- app_assoc|].
    split; [discriminate|]. left. split; [reflexivity|].
    exists raw. split; [rewrite P; apply in_or_app; right; now left|].
    split.
    + unfold print at 1. cbn [files].
      rewrite (save_answer_log m i q _ path _ Hp). cbn [files print].
      unfold log_text. now destruct (files w path).
    + intros p Hne. unfold print at 1. cbn [files].
      now rewrite (save_answer_other m i q _ path p _ Hp Hne).
Qed.

Lemma log_text_after (w w' : world) (path text : str) :
  files w' path = Some (log_text w path ++ text) ->
  log_text w' path = log_text w path ++ text.
Proof. intros H. unfold log_text at 1. now rewrite H. Qed.

(** What a run of the loop does: it appends the records of an initial
    segment of its indices, leaves every other file alone, never
    raises, and has recorded every index when it returns without a
    stop message. *)
Lemma ask_each_summary (m : manager) (path : str) (indices : list Z)
    (w w' : world) (r : result unit) :
  answers_file_path m = Some path ->
  Forall (fun i => exists q, getitem (questions m) i = Some q) indices ->
  ask_each m indices w = (r, w') ->
  exists records tail,
    (exists used, stdin w = used ++ stdin w')
    /\ (forall e, r <> Raise e)
    /\ record_indices records = firstn (List.length records) indices
    /\ (List.length records <= List.length indices)%nat
    /\ Forall (record_from (questions m) (stdin w)) records
    /\ files w' path = log_after w path records
    /\ (forall p, p <> path -> files w' p = files w p)
    /\ stdout w' = stdout w ++ tail
    /\ (r = Ret tt -> existsb is_stop tail = false ->
        List.length records = List.length indices).
Proof.
  intros Hp Hv. revert w.
  induction Hv as [|i rest [q Hq] _ IH]; intros w H; cbn [ask_each] in H.
  - injection H as <- <-. exists [], [].
    split; [now exists []|]. split; [discriminate|].
    rewrite app_nil_r. now repeat split.
  - destruct (ask_question m i w) as [ri wi] eqn:Ha.
    destruct (ask_question_outcome m i q path w wi ri Hp Hq Ha)
      as [[used Hu] [Hr O]].
    destruct (ask_question_events m i q w wi ri Hq Ha) as [t [Et [_ R]]].
    destruct O as [[-> [raw [Hin [Hf Ho]]]]|[Hn Hf]].
    + destruct (IH wi H)
        as [recs [t2 [[used2 Hu2] [Hr2 [Hi [Hl [Hfrom [Hf2 [Ho2 [Et2 Hc]]]]]]]]]].
      exists ((i, q, recorded_answer raw) :: recs),
             (QuestionShown (i + 1) (List.length (questions m))
                (display_text q) :: t ++ t2).
      split; [exists (used ++ used2); now rewrite Hu, Hu2, app_assoc|].
      split; [exact Hr2|].
      split; [cbn [record_indices map List.length firstn fst];
              f_equal; exact Hi|].
      split; [cbn [List.length]; lia|].
      split.
      { constructor.
        - split; [exact Hq|]. now exists raw.
        - eapply Forall_impl; [|exact Hfrom].
          intros [[j qj] aj] [Hj [raw' [Hin' Ha']]].
          split; [exact Hj|]. exists raw'. split; [|exact Ha'].
          rewrite Hu. apply in_or_app. now right. }
      split.
      { rewrite Hf2. unfold log_after.
        cbn [map List.concat render]. rewrite (log_text_after _ _ _ _ Hf).
        destruct recs as [|r0 recs].
        - cbn [map List.concat]. now rewrite Hf, app_nil_r.
        - now rewrite <- app_assoc. }
      split; [intros p Hne; now rewrite (Ho2 p Hne), (Ho p Hne)|].
      split; [rewrite Et2, Et, <- app_assoc; reflexivity|].
      intros Hret Hs. cbn [existsb is_stop orb] in Hs.
      rewrite existsb_app in Hs. apply orb_false_iff in Hs as [_ Hs].
      cbn [List.length]. f_equal. now apply Hc.
    + exists [], (QuestionShown (i + 1) (List.length (questions m))
                    (display_text q) :: t).
      assert (Hw : w' = wi /\ (forall e, r <> Raise e)
                   /\ (r = Ret tt -> ri = Ret false)).
      { destruct ri as [[|]|e|]; try congruence;
          injection H as <- <-; (split; [reflexivity|]);
          (split; [discriminate|]); try reflexivity; discriminate. }
      destruct Hw as [-> [Hr' Hfalse]].
      split; [now exists used|]. split; [exact Hr'|].
      split; [reflexivity|]. split; [cbn [List.length]; lia|].
      split; [constructor|].
      split; [unfold log_after; now rewrite Hf|].
      split; [intros p _; now rewrite Hf|].
      split; [exact Et|].
      intros Hret Hs. rewrite (Hfalse Hret) in R.
      destruct R as [pre [e [-> [He _]]]].
      cbn [existsb is_stop orb] in Hs. rewrite existsb_app in Hs.
      cbn [existsb] in Hs. rewrite He in Hs.
      rewrite orb_true_r in Hs. discriminate.
Qed.

Lemma range_valid (qs : list str) (s : Z) :
  0 <= s ->
  Forall (fun i => exists q, getitem qs i = Some q)
         (range s (Z.of_nat (List.length qs))).
Proof.
  intros H. apply Forall_forall. intros i Hi. apply range_bounds in Hi.
  apply getitem_Some. lia.
Qed.

(** What a session does to the world, whatever the console holds. *)
Lemma session_summary (m m' : manager) (w w' : world) (r : result unit) :
  start_questionnaire_session m w = (r, m', w') ->
  exists records,
    record_indices records
    = firstn (List.length records)
        (range (scan_lines (log_lines w (answers_path m)))
           (Z.of_nat (List.length (questions m))))
    /\ (List.length records
        <= List.length (range (scan_lines (log_lines w (answers_path m)))
                          (Z.of_nat (List.length (questions m)))))%nat
    /\ Forall (record_from (questions m) (stdin w)) records
    /\ files w' (answers_path m) = log_after w (answers_path m) records
    /\ (forall p, p <> answers_path m -> files w' p = files w p)
    /\ (forall e, r = Raise e ->
        e = KeyboardInterrupt /\ records = []
        /\ hd_error (stdin w) = Some CtrlC).
Proof.
  intros H. unfold start_questionnaire_session in H.
  destruct (match questions m with [] => false | _ => true end);
    cbn [negb] in H.
  2: { injection H as <- _ <-. exists [].
       repeat split; try reflexivity; [cbn; lia | constructor | discriminate..]. }
  set (ms := set_answers_file_path (answers_path m) m) in H.
  assert (Hp : answers_file_path ms = Some (answers_path m)) by reflexivity.
  rewrite (scan_lines_log w ms _ Hp) in H.
  set (k := scan_lines (log_lines w (answers_path m))) in *.
  set (wb := if 0 <? k then _ else _) in H.
  assert (Fb : files wb = files w) by (unfold wb; now destruct (0 <? k)).
  assert (Sb : stdin wb = stdin w) by (unfold wb; now destruct (0 <? k)).
  cbn [stdin print] in H. rewrite Sb in H.
  destruct (stdin w) as [|[entered|] rest] eqn:Hin.
  - injection H as <- _ <-. exists []. cbn [files print]. rewrite Fb.
    repeat split; try reflexivity; [cbn; lia | constructor | discriminate..].
  - destruct (ask_remaining ms k _) as [r1 w1] eqn:Hr.
    injection H as <- _ <-. unfold ask_remaining in Hr.
    destruct (ask_each ms _ _) as [r2 w2] eqn:He.
    destruct (ask_each_summary ms (answers_path m) _ _ w2 r2 Hp
                (range_valid (questions m) k
                   (scan_lines_nonneg (log_lines w (answers_path m)))) He)
      as [recs [t [_ [Hr2 [Hi [Hl [Hfrom [Hf [Ho _]]]]]]]]].
    assert (Fw : files w1 = files w2).
    { destruct r2; injection Hr as _ <-; try reflexivity.
      now destruct (k <? _). }
    assert (Rw : forall e, r1 = Raise e -> False).
    { intros e ->. destruct r2; try discriminate.
      injection Hr as ->. now apply (Hr2 e). }
    exists recs. rewrite Fw.
    split; [exact Hi|]. split; [exact Hl|].
    split.
    { eapply Forall_impl; [|exact Hfrom].
      intros [[j qj] aj] [Hj [raw [Hraw Ha]]]. split; [exact Hj|].
      exists raw. split; [|exact Ha]. right. exact Hraw. }
    split.
    { rewrite Hf. unfold log_after, log_text. cbn [files with_stdin print].
      now rewrite Fb. }
    split.
    { intros p Hne. rewrite (Ho p Hne). cbn [files with_stdin print].
      now rewrite Fb. }
    intros e He'. exfalso. now apply (Rw e).
  - injection H as <- _ <-. exists []. cbn [files with_stdin print].
    rewrite Fb.
    repeat split; try reflexivity; [cbn; lia | constructor | congruence].
Qed.

End SummaryFacts.

Module OffsetFacts.

Import Text Questionnaire Reading Ledger.
Import TextFacts IntFacts LogFacts LineFacts AskFacts LoadFacts RecordFacts
       SessionFacts InvariantFacts SummaryFacts.
Local Open Scope Z_scope.

Lemma render_nonempty (records : list (Z * str * str)) :
  List.concat (map render records) = [] -> records = [].
Proof.
  destruct records as [|[[i q] a] rs]; [reflexivity|].
  cbn [map List.concat render]. rewrite record_line_body.
  intros H. apply app_eq_nil in H as [H _]. apply app_eq_nil in H as [_ H].
  discriminate.
Qed.

(** A text made of session records is read back record by record. *)
Lemma readlines_records (qs : list str) (records : list (Z * str * str)) :
  Forall line_free qs ->
  Forall (session_record qs) records ->
  readlines (List.concat (map render records)) = map render records.
Proof.
  intros Hqs Hr.
  set (body := fun r : Z * str * str =>
                 let '(i, q, a) := r in str_of_int i ++ 59%N :: q ++ 59%N :: a).
  assert (E : map render records
              = map (fun b => b ++ [10%N]) (map body records)).
  { rewrite map_map. apply map_ext. intros r. apply render_body. }
  rewrite E. apply readlines_concat.
  apply Forall_map. rewrite Forall_forall in *.
  intros [[i q] a] Hin. destruct (Hr _ Hin) as [_ [Hg Ha]].
  apply record_body_line_free; [|exact Ha].
  apply Hqs. now apply (getitem_In qs i).
Qed.

Lemma indices_of_records (records : list (Z * str * str)) :
  indices_by record_index (map render records) = record_indices records.
Proof.
  induction records as [|[[i q] a] rs IH]; [reflexivity|].
  cbn [map indices_by flat_map render record_indices fst].
  fold (indices_by record_index (map render rs)).
  rewrite record_index_record_line, IH. reflexivity.
Qed.

Lemma max_app (a b : list Z) :
  fold_right Z.max 0 (a ++ b)
  = Z.max (fold_right Z.max 0 a) (fold_right Z.max 0 b).
Proof.
  induction a as [|x a IH]; cbn [app fold_right].
  - assert (0 <= fold_right Z.max 0 b) by (induction b; simpl; lia). lia.
  - rewrite IH. lia.
Qed.

Lemma max_firstn_range (s b : Z) (j : nat) :
  0 <= s -> (1 <= j <= List.length (range s b))%nat ->
  fold_right Z.max 0 (firstn j (range s b)) = s + Z.of_nat j - 1.
Proof.
  revert s. induction j as [|j IH]; intros s Hs Hj; [lia|].
  rewrite range_length in Hj.
  rewrite (range_cons s b) by lia. cbn [firstn fold_right].
  destruct j as [|j'].
  - cbn [firstn fold_right]. lia.
  - rewrite IH; [lia | lia |]. rewrite range_length. lia.
Qed.

Lemma firstn_range (s b : Z) (j : nat) :
  (j <= List.length (range s b))%nat ->
  firstn j (range s b) = range s (s + Z.of_nat j).
Proof.
  rewrite range_length. revert s.
  induction j as [|j IH]; intros s Hj.
  - rewrite (range_empty s (s + Z.of_nat 0)) by lia. reflexivity.
  - rewrite (range_cons s b) by lia.
    rewrite (range_cons s (s + Z.of_nat (S j))) by lia.
    cbn [firstn]. f_equal. rewrite IH by lia. f_equal. lia.
Qed.

Lemma firstn_range_bounds (s b i : Z) (j : nat) :
  In i (firstn j (range s b)) -> s <= i < b.
Proof.
  intros H. apply range_bounds.
  rewrite <- (firstn_skipn j (range s b)). apply in_or_app. now left.
Qed.

End OffsetFacts.

Import Text Questionnaire Reading Ledger Examples.
Import TextFacts IntFacts LogFacts LineFacts AskFacts LoadFacts RecordFacts
       SessionFacts InvariantFacts SummaryFacts OffsetFacts.

(** ** The session and the file system *)

(** X1.  A session only ever appends to its own log: every other file
    is as before, the text of the log before the session is a prefix
    of its text after, and when nothing is added the log is not even
    created. *)
Theorem session_only_appends
    (m m' : manager) (w w' : world) (r : result unit) :
  start_questionnaire_session m w = (r, m', w') ->
  (forall p, p <> answers_path m -> files w' p = files w p)
  /\ exists added,
       log_text w' (answers_path m) = log_text w (answers_path m) ++ added
       /\ (added = [] ->
           files w' (answers_path m) = files w (answers_path m)).
Proof.
  intros H.
  destruct (session_summary m m' w w' r H)
    as [recs [_ [_ [_ [Hf [Ho _]]]]]].
  split; [exact Ho|].
  exists (List.concat (map render recs)). split.
  - unfold log_text at 1. rewrite Hf. unfold log_after.
    destruct recs; [|reflexivity].
    cbn [map List.concat]. now rewrite app_nil_r.
  - intros E. apply render_nonempty in E. now rewrite Hf, E.
Qed.

(** X2.  On a console that delivers lines or interrupts and whose
    input never ends, a session raises nothing but the interrupt
    received at the prompt that precedes the first question, and then
    no file has changed: the questions are never indexed out of range
    and the path of the log is set before it is used.  (At the end of
    the input the same prompt would raise [EOFError]; the console of
    the embedding has no such event.) *)
Theorem session_raises_only_interrupt
    (m m' : manager) (w w' : world) (e : exn) :
  start_questionnaire_session m w = (Raise e, m', w') ->
  e = KeyboardInterrupt
  /\ hd_error (stdin w) = Some CtrlC
  /\ forall p, files w' p = files w p.
Proof.
  intros H.
  destruct (session_summary m m' w w' (Raise e) H)
    as [recs [_ [_ [_ [Hf [Ho Hr]]]]]].
  destruct (Hr e eq_refl) as [He [Hn Hc]].
  split; [exact He|]. split; [exact Hc|].
  intros p. destruct (list_eq_dec N.eq_dec p (answers_path m)) as [->|Hne].
  - now rewrite Hf, Hn.
  - now apply Ho.
Qed.

(** X3.  An interrupt at the answer prompt, after any number of empty
    inputs, ends the question like QUIT does: [ask_question] returns
    [False], prints the message with the number of the question, and
    writes nothing. *)
Theorem interrupt_stops_without_record
    (m : manager) (i : Z) (q : str) (blanks : list str)
    (rest : list console) (w : world) :
  getitem (questions m) i = Some q ->
  Forall (fun b => strip b = []) blanks ->
  stdin w = map Line blanks ++ CtrlC :: rest ->
  ask_question m i w
  = (Ret false,
     World (files w) rest
       (stdout w
        ++ QuestionShown (i + 1) (List.length (questions m)) (display_text q)
           :: prompts_for blanks ++ [SessionInterrupted (i + 1)])).
Proof.
  intros Hq Hb Hin. unfold ask_question. rewrite Hq.
  cbn [stdin print]. rewrite Hin.
  set (w0 := print _ w).
  assert (G : forall w1,
             answer_loop m i (map Line blanks ++ CtrlC :: rest) w1
             = (Ret false,
                World (files w1) rest
                  (stdout w1 ++ prompts_for blanks
                   ++ [SessionInterrupted (i + 1)]))).
  { clear Hin w0. induction Hb as [|b bs Hs _ IH]; intros w1.
    - cbn [map app answer_loop]. unfold print, with_stdin, prompts_for.
      cbn [files stdin stdout map List.concat app].
      now rewrite <- app_assoc.
    - cbn [map app]. rewrite (answer_loop_blank _ _ _ _ _ Hs), IH.
      unfold print, with_stdin, prompts_for.
      cbn [files stdin stdout map List.concat app].
      now rewrite <- !app_assoc. }
  rewrite G. unfold w0, print. cbn [files stdout].
  now rewrite <- app_assoc.
Qed.

(** The first question, an empty line, then the interrupt. *)
Lemma interrupt_stops_without_record_witness :
  ask_question three_questions_in_session 0 (fresh [Line []; CtrlC; Line (lit "x")])
  = (Ret false,
     World (files (fresh [Line []; CtrlC; Line (lit "x")])) [Line (lit "x")]
       [QuestionShown 1 3 (lit "A?"); AnswerPrompt; PleaseProvideAnswer;
        AnswerPrompt; SessionInterrupted 1]).
Proof.
  apply (interrupt_stops_without_record three_questions_in_session 0
           (lit "1. A?") [[]] [Line (lit "x")]
           (fresh [Line []; CtrlC; Line (lit "x")])).
  - reflexivity.
  - repeat constructor.
  - reflexivity.
Defined.

(** X4.  The loop over the remaining questions appends one record per
    answer, for consecutive indices from the start index on, each with
    the stored text of its question and the answer kept from a console
    line; when it returns and no stop was reported, every remaining
    index has its record. *)
Theorem remaining_answers_are_recorded_in_order
    (m : manager) (path : str) (start : Z) (w w' : world) (r : result unit) :
  answers_file_path m = Some path ->
  (0 <= start)%Z ->
  ask_remaining m start w = (r, w') ->
  exists records,
    files w' path = log_after w path records
    /\ record_indices records
       = range start (start + Z.of_nat (List.length records))
    /\ (start + Z.of_nat (List.length records)
        <= Z.max start (Z.of_nat (List.length (questions m))))%Z
    /\ Forall (record_from (questions m) (stdin w)) records
    /\ (r = Ret tt ->
        existsb is_stop (skipn (List.length (stdout w)) (stdout w')) = false ->
        record_indices records
        = range start (Z.of_nat (List.length (questions m)))).
Proof.
  intros Hp Hs H. unfold ask_remaining in H.
  set (total := Z.of_nat (List.length (questions m))) in *.
  destruct (ask_each m (range start total) w) as [r2 w2] eqn:He.
  destruct (ask_each_summary m path _ w w2 r2 Hp
              (range_valid (questions m) start Hs) He)
    as [recs [t [_ [_ [Hi [Hl [Hfrom [Hf [_ [Et Hc]]]]]]]]]].
  fold total in Hi, Hl, Hc.
  assert (Fw : files w' = files w2).
  { destruct r2; injection H as _ <-; try reflexivity.
    now destruct (start <? total)%Z. }
  exists recs. rewrite Fw. split; [exact Hf|].
  split; [rewrite Hi; now apply firstn_range|].
  split; [rewrite range_length in Hl; lia|].
  split; [exact Hfrom|].
  intros Hr Hstop.
  assert (R2 : r2 = Ret tt).
  { destruct r2 as [[]|e|]; [reflexivity|..]; injection H as <- _;
      discriminate. }
  assert (St : existsb is_stop t = false).
  { subst r2. injection H as _ <-.
    destruct (start <? total)%Z; unfold print in Hstop; cbn [stdout] in Hstop;
      rewrite Et in Hstop.
    - rewrite <- app_assoc, skipn_app, skipn_all, Nat.sub_diag in Hstop.
      cbn [app skipn] in Hstop. rewrite existsb_app in Hstop.
      now apply orb_false_iff in Hstop as [Hstop _].
    - rewrite skipn_app, skipn_all, Nat.sub_diag in Hstop.
      exact Hstop. }
  rewrite Hi, (Hc R2 St). apply firstn_all.
Qed.

(** From the second question on: an answer, then QUIT. *)
Lemma remaining_answers_are_recorded_in_order_witness :
  exists r w' records,
    ask_remaining three_questions_in_session 1
      (fresh [Line (lit "b"); Line (lit "quit")]) = (r, w')
    /\ files w' (answers_path three_questions)
       = log_after (fresh [Line (lit "b"); Line (lit "quit")])
           (answers_path three_questions) records
    /\ record_indices records
       = range 1 (1 + Z.of_nat (List.length records))
    /\ files w' (answers_path three_questions)
       = Some (text_of [lit "1;2. B?;b"]).
Proof.
  destruct (ask_remaining three_questions_in_session 1
              (fresh [Line (lit "b"); Line (lit "quit")])) as [r w'] eqn:E.
  destruct (remaining_answers_are_recorded_in_order
              three_questions_in_session (answers_path three_questions) 1
              _ w' r eq_refl ltac:(lia) E)
    as [records [Hf [Hi _]]].
  exists r, w', records. split; [reflexivity|].
  split; [exact Hf|]. split; [exact Hi|].
  vm_compute in E. injection E as _ <-. reflexivity.
Defined.

(** A few sessions on the three questions. *)
Lemma session_only_appends_witness :
  exists r m' w',
    start_questionnaire_session three_questions
      (logged [lit "0;1. A?;a"] [Line []; Line (lit "again"); Line (lit "b")])
    = (r, m', w')
    /\ (forall p, p <> answers_path three_questions ->
        files w' p
        = files (logged [lit "0;1. A?;a"]
                   [Line []; Line (lit "again"); Line (lit "b")]) p)
    /\ files w' (answers_path three_questions)
       = Some (text_of [lit "0;1. A?;a"; lit "0;1. A?;again"; lit "1;2. B?;b"]).
Proof.
  destruct (start_questionnaire_session three_questions
              (logged [lit "0;1. A?;a"]
                 [Line []; Line (lit "again"); Line (lit "b")]))
    as [[r m'] w'] eqn:E.
  destruct (session_only_appends three_questions m' _ w' r E) as [Ho _].
  exists r, m', w'. split; [reflexivity|]. split; [exact Ho|].
  vm_compute in E. injection E as _ _ <-. reflexivity.
Defined.

(** The interrupt at the first prompt. *)
Lemma session_raises_only_interrupt_witness :
  exists m' w',
    start_questionnaire_session three_questions
      (logged [lit "0;1. A?;a"] [CtrlC; Line (lit "b")])
    = (Raise KeyboardInterrupt, m', w')
    /\ forall p,
         files w' p
         = files (logged [lit "0;1. A?;a"] [CtrlC; Line (lit "b")]) p.
Proof.
  destruct (start_questionnaire_session three_questions
              (logged [lit "0;1. A?;a"] [CtrlC; Line (lit "b")]))
    as [[r m'] w'] eqn:E.
  assert (R : r = Raise KeyboardInterrupt)
    by (vm_compute in E; now injection E as <- _ _).
  subst r.
  destruct (session_raises_only_interrupt three_questions m' _ w' _ E)
    as [_ [_ Hf]].
  exists m', w'. split; [reflexivity | exact Hf].
Defined.

(** ** The resume offset from one session to the next *)

(** X5.  On a log that sessions have written, with questions and
    console lines free of line breaks, a session that saves [saved]
    answers adds that many lines to the log and moves the resume
    offset forward by [saved - 1], and not at all when it saves none:
    the first answer of a session goes to the question the offset
    already points at. *)
Theorem session_moves_offset
    (m m' : manager) (w w' : world) (r : result unit) :
  Forall line_free (questions m) ->
  console_ok (stdin w) ->
  written_by_sessions (questions m) (files w (answers_path m)) ->
  start_questionnaire_session m w = (r, m', w') ->
  exists saved : nat,
    List.length (log_lines w' (answers_path m))
    = (List.length (log_lines w (answers_path m)) + saved)%nat
    /\ scan_lines (log_lines w' (answers_path m))
       = (scan_lines (log_lines w (answers_path m))
          + Z.of_nat (Nat.pred saved))%Z.
Proof.
  intros Hqs Hc Hw H.
  destruct (session_summary m m' w w' r H)
    as [recs [Hi [Hl [Hfrom [Hf _]]]]].
  set (path := answers_path m) in *.
  set (s := scan_lines (log_lines w path)) in *.
  exists (List.length recs).
  destruct recs as [|r0 recs'] eqn:Er.
  { unfold log_lines. cbn [log_after] in Hf. rewrite Hf.
    cbn [List.length Nat.pred]. split; [lia|].
    change (match files w path with
            | Some content => readlines content
            | None => []
            end) with (log_lines w path). fold s. lia. }
  assert (Hne : recs <> []) by (rewrite Er; discriminate).
  rewrite <- Er in *. clear Er r0 recs'.
  assert (Hs : (0 <= s)%Z) by apply scan_lines_nonneg.
  assert (Old : exists old,
             Forall (session_record (questions m)) old
             /\ log_text w path = List.concat (map render old)
             /\ log_lines w path = map render old).
  { unfold log_text, log_lines. unfold written_by_sessions in Hw.
    destruct (files w path) as [content|].
    - destruct Hw as [old [Ho ->]]. exists old.
      split; [exact Ho|]. split; [reflexivity|].
      now apply (readlines_records (questions m)).
    - exists []. now repeat split. }
  destruct Old as [old [Ho [Et El]]].
  assert (New : Forall (session_record (questions m)) recs).
  { rewrite Forall_forall in *. intros [[i q] a] Hin.
    destruct (Hfrom _ Hin) as [Hq [raw [Hraw Ha]]].
    split; [|split; [exact Hq|]].
    - assert (Ii : In i (record_indices recs)).
      { unfold record_indices. apply in_map_iff.
        now exists (i, q, a). }
      rewrite Hi in Ii. apply firstn_range_bounds in Ii. fold s in Ii. lia.
    - rewrite Ha. apply recorded_answer_line_free.
      now apply (console_ok_line (stdin w)). }
  assert (Hnew : files w' path
                 = Some (List.concat (map render (old ++ recs)))).
  { rewrite Hf. unfold log_after. rewrite Et, map_app, concat_app.
    destruct recs; [congruence | reflexivity]. }
  assert (Lines : log_lines w' path = map render (old ++ recs)).
  { unfold log_lines. rewrite Hnew.
    apply (readlines_records (questions m)); [exact Hqs|].
    apply Forall_app. now split. }
  rewrite Lines, El. split; [now rewrite !length_map, length_app|].
  assert (So : fold_right Z.max 0%Z (record_indices old) = s).
  { unfold s. now rewrite scan_lines_max, El, indices_of_records. }
  rewrite scan_lines_max, indices_of_records.
  unfold record_indices. rewrite map_app. fold (record_indices old).
  fold (record_indices recs). rewrite max_app, So, Hi.
  fold s. fold s in Hl.
  rewrite max_firstn_range; [|exact Hs|].
  - destruct recs; [congruence|]. cbn [List.length Nat.pred]. lia.
  - split; [|exact Hl]. destruct recs; [congruence | cbn; lia].
Qed.

(** One answer in the session: the log gains a line, the resume
    offset stays where it was. *)
Lemma session_moves_offset_witness :
  exists r m' w',
    start_questionnaire_session three_questions
      (logged [lit "0;1. A?;a"; lit "1;2. B?;b"]
         [Line []; Line (lit "again"); Line (lit "quit")])
    = (r, m', w')
    /\ List.length (log_lines w' (answers_path three_questions)) = 3%nat
    /\ scan_lines (log_lines w' (answers_path three_questions)) = 1%Z.
Proof.
  destruct (start_questionnaire_session three_questions
              (logged [lit "0;1. A?;a"; lit "1;2. B?;b"]
                 [Line []; Line (lit "again"); Line (lit "quit")]))
    as [[r m'] w'] eqn:E.
  assert (Q : Forall line_free (questions three_questions))
    by (repeat constructor; vm_compute; intuition discriminate).
  assert (C : console_ok
                (stdin (logged [lit "0;1. A?;a"; lit "1;2. B?;b"]
                          [Line []; Line (lit "again"); Line (lit "quit")])))
    by (repeat constructor; vm_compute; intuition discriminate).
  assert (W : written_by_sessions (questions three_questions)
                (files (logged [lit "0;1. A?;a"; lit "1;2. B?;b"]
                          [Line []; Line (lit "again"); Line (lit "quit")])
                   (answers_path three_questions))).
  { exists [(0%Z, lit "1. A?", lit "a"); (1%Z, lit "2. B?", lit "b")].
    split; [|reflexivity].
    repeat constructor; try reflexivity; try lia;
      vm_compute; intuition discriminate. }
  destruct (session_moves_offset three_questions m' _ w' r Q C W E)
    as [saved _].
  exists r, m', w'. split; [reflexivity|].
  vm_compute in E. injection E as _ _ <-. split; reflexivity.
Defined.

(** ** The text shown for a question *)

Lemma cut_dot_space (d rest : str) :
  ~ In 46%N d ->
  cut [46%N; 32%N] (d ++ 46%N :: 32%N :: rest) = Some (d, rest).
Proof.
  intros H. induction d as [|c d IH].
  - cbn [app cut starts_with]. rewrite !N.eqb_refl. reflexivity.
  - cbn [app cut starts_with].
    destruct (N.eqb_spec 46 c) as [<-|_].
    + exfalso. apply H. now left.
    + cbn [andb]. rewrite IH; [reflexivity|].
      intros F. apply H. now right.
Qed.

(** X6.  The legacy number of a question is removed for display,
    whatever the text that follows it: a question stored as the decimal
    text of a number that is not negative, a period, a space and a
    text is shown as that text alone. *)
Theorem display_removes_the_number (n : Z) (text : str) :
  (0 <= n)%Z ->
  display_text (str_of_int n ++ lit ". " ++ text) = text.
Proof.
  intros Hn.
  assert (D : exists d, str_of_int n = uint_digits d /\ d <> Decimal.Nil).
  { unfold str_of_int. destruct n as [|p|p]; cbn [Z.to_int]; [| |lia].
    - exists (Decimal.D0 Decimal.Nil). split; [reflexivity | discriminate].
    - exists (Pos.to_uint p). split; [reflexivity|].
      apply DecimalPos.Unsigned.to_uint_nonnil. }
  destruct D as [d [E Hd]]. rewrite E.
  assert (A : forallb is_ascii_digit (uint_digits d) = true)
    by apply uint_digits_ascii.
  assert (Dot : ~ In 46%N (uint_digits d)).
  { rewrite forallb_forall in A. intros F. specialize (A _ F).
    discriminate. }
  assert (Dig : isdigit (uint_digits d) = true).
  { unfold isdigit. destruct (uint_digits d) as [|c t] eqn:U.
    - destruct d; [congruence|..]; discriminate.
    - rewrite forallb_forall in *. intros x Hx. specialize (A x Hx).
      unfold isdigit_char, digit_ranges. cbn [existsb fst snd].
      unfold is_ascii_digit in A. now rewrite A. }
  unfold display_text, contains. cbn [split].
  change (lit ". ") with [46%N; 32%N]. cbn [app].
  pose proof (cut_dot_space _ text Dot) as Cut.
  unfold str, char in *. rewrite Cut. cbn [nth andb]. now rewrite Dig.
Qed.

(** Question 12, whose text has a period and a space of its own. *)
Lemma display_removes_the_number_witness :
  display_text (str_of_int 12 ++ lit ". " ++ lit "Why. Tell me") 
  = lit "Why. Tell me".
Proof.
  apply (display_removes_the_number 12 (lit "Why. Tell me")). lia.
Defined.

Module MenuFacts.

Import Text Questionnaire Reading Ledger Shell Alarms.
Import TextFacts IntFacts LogFacts LineFacts AskFacts LoadFacts RecordFacts
       SessionFacts InvariantFacts SummaryFacts OffsetFacts.
Local Open Scope Z_scope.

Lemma enumerate_cons {A : Type} (start : nat) (x : A) (xs : list A) :
  enumerate start (x :: xs) = (start, x) :: enumerate (S start) xs.
Proof. reflexivity. Qed.

Lemma enumerate_In {A : Type} (xs : list A) (start i : nat) (x : A) :
  In (i, x) (enumerate start xs)
  <-> (start <= i)%nat /\ nth_error xs (i - start) = Some x.
Proof.
  revert start. induction xs as [|y ys IH]; intros start.
  - cbn. split; [tauto|]. intros [_ H]. now destruct (i - start)%nat.
  - rewrite enumerate_cons. cbn [In]. rewrite IH. split.
    + intros [E|[Hle Hn]].
      * injection E as <- <-. split; [lia|]. now rewrite Nat.sub_diag.
      * split; [lia|].
        replace (i - start)%nat with (S (i - S start)) by lia. exact Hn.
    + intros [Hle Hn]. destruct (Nat.eq_dec i start) as [->|Hne].
      * left. rewrite Nat.sub_diag in Hn. cbn in Hn. now injection Hn as <-.
      * right. split; [lia|].
        replace (i - start)%nat with (S (i - S start)) in Hn by lia.
        exact Hn.
Qed.

Lemma strip_str_of_int (z : Z) : strip (str_of_int z) = str_of_int z.
Proof.
  apply strip_by_none.
  destruct (str_of_int_shape z) as [c [t [E [_ A]]]]. rewrite E.
  rewrite forallb_forall in *. intros x Hx. specialize (A x Hx).
  apply orb_true_iff in A as [A|A].
  - pose proof (ascii_digit_not_space x A) as S.
    unfold int_space in S. apply andb_false_iff in S as [S|S];
      [now rewrite S|].
    unfold is_ascii_digit, between in *.
    apply andb_true_iff in A as [A1 A2].
    apply N.leb_le in A1. apply N.leb_le in A2.
    apply negb_false_iff, andb_true_iff in S as [_ S2].
    apply N.leb_le in S2. lia.
  - apply N.eqb_eq in A. now subst x.
Qed.

Lemma display_messages (w : world) :
  Forall menu_message (display_available_languages w).
Proof.
  unfold display_available_languages.
  apply Forall_app. split; [repeat constructor|].
  apply Forall_app. split; [|repeat constructor].
  apply Forall_flat_map, Forall_forall. intros [idx [name suffix]] _.
  destruct (questions_file_exists w suffix); repeat constructor.
Qed.

Lemma turn_messages (w : world) (printed : list menu_event) :
  Forall menu_message printed ->
  Forall menu_message
    (printed ++ display_available_languages w ++ [ChoicePrompt]).
Proof.
  intros Hp. apply Forall_app. split; [exact Hp|].
  apply Forall_app. split; [apply display_messages | repeat constructor].
Qed.

(** What the menu loop guarantees, whatever is typed. *)
Lemma choice_loop_post (m : manager) (pending : list console) (w : world)
    (printed : list menu_event) (r : result str) (m' : manager) (w' : world)
    (out : list menu_event) :
  Forall menu_message printed ->
  choice_loop m pending w printed = (r, m', w', out) ->
  files w' = files w /\ stdout w' = stdout w /\ Forall menu_message out
  /\ match r with
     | Ret suffix =>
         (exists name, In (name, suffix) AVAILABLE_LANGUAGES)
         /\ questions_file_exists w suffix = true
         /\ m' = set_current_language suffix m
     | Raise e => e = KeyboardInterrupt /\ m' = m
     | Stuck => m' = m
     end.
Proof.
  revert w printed.
  induction pending as [|e pending IH]; intros w printed Hp H;
    cbn [choice_loop] in H.
  - injection H as <- <- <- <-.
    split; [reflexivity|]. split; [reflexivity|].
    split; [now apply turn_messages | reflexivity].
  - pose proof (turn_messages w printed Hp) as Hd.
    destruct e as [raw|].
    + destruct (int (strip raw)) as [n|].
      * destruct ((1 <=? n) && (n <=? Z.of_nat (List.length AVAILABLE_LANGUAGES)))
          eqn:Hb.
        -- apply andb_true_iff in Hb as [H1 H2].
           apply Z.leb_le in H1. apply Z.leb_le in H2.
           destruct (getitem_Some AVAILABLE_LANGUAGES (n - 1)) as [[name suffix] Hg];
             [lia|].
           rewrite Hg in H.
           change (questions_file_exists (with_stdin pending w) suffix)
             with (questions_file_exists w suffix) in H.
           destruct (questions_file_exists w suffix) eqn:Hex.
           ++ injection H as <- <- <- <-. repeat split.
              ** apply Forall_app. split; [exact Hd | repeat constructor].
              ** exists name. now apply (getitem_In AVAILABLE_LANGUAGES (n - 1)).
              ** exact Hex.
           ++ apply IH in H; [exact H|].
              apply Forall_app. split; [exact Hd | repeat constructor].
        -- apply IH in H; [exact H|].
           apply Forall_app. split; [exact Hd | repeat constructor].
      * apply IH in H; [exact H|].
        apply Forall_app. split; [exact Hd | repeat constructor].
    + injection H as <- <- <- <-. now repeat split.
Qed.

(** A language returned by the menu can be loaded. *)
Lemma choice_gives_loadable (m m' : manager) (w w' : world) (suffix : str)
    (printed : list menu_event) :
  get_language_choice m w = (Ret suffix, m', w', printed) ->
  (exists name, In (name, suffix) AVAILABLE_LANGUAGES)
  /\ m' = set_current_language suffix m
  /\ files w' = files w
  /\ Forall menu_message printed
  /\ exists content,
       files w (questions_name suffix) = Some content
       /\ load_questions m' suffix w'
          = (true,
             Manager (Some suffix)
               (map strip (filter (fun line => negb (blank line))
                             (readlines content)))
               (answers_file_path m) (Some (questions_name suffix)),
             print (QuestionsLoaded
                      (List.length (filter (fun line => negb (blank line))
                                      (readlines content)))) w').
Proof.
  intros H. unfold get_language_choice in H.
  destruct (choice_loop_post m (stdin w) w [] _ m' w' printed
              (Forall_nil _) H) as [Hf [_ [Hm [Hn [Hex ->]]]]].
  split; [exact Hn|]. split; [reflexivity|]. split; [exact Hf|].
  split; [exact Hm|].
  unfold questions_file_exists in Hex. fold (questions_name suffix) in Hex.
  destruct (files w (questions_name suffix)) as [content|] eqn:Hc;
    [|discriminate].
  exists content. split; [reflexivity|].
  assert (Hc' : files w' (lit "600Q_" ++ suffix ++ lit ".txt") = Some content)
    by (rewrite Hf; exact Hc).
  now rewrite (load_questions_found _ suffix content w' Hc').
Qed.

End MenuFacts.

Import Shell Alarms MenuFacts.

(** ** The language menu *)

(** X7.  Whatever is typed at the menu, a language it returns is one
    of the table whose questions file exists; the manager then holds
    its suffix, no file has changed, and loading the questions of that
    suffix succeeds, so that the log of the session carries the suffix
    of the questions file. *)
Theorem chosen_language_loads
    (m m' : manager) (w w' : world) (suffix : str)
    (printed : list menu_event) :
  get_language_choice m w = (Ret suffix, m', w', printed) ->
  (exists name, In (name, suffix) AVAILABLE_LANGUAGES)
  /\ current_language m' = Some suffix
  /\ files w' = files w
  /\ exists content m2 w2,
       files w (questions_name suffix) = Some content
       /\ load_questions m' suffix w' = (true, m2, w2)
       /\ questions m2
          = map strip (filter (fun line => negb (blank line))
                         (readlines content))
       /\ answers_path m2 = log_name suffix
       /\ questions_file_path m2 = Some (questions_name suffix).
Proof.
  intros H.
  destruct (choice_gives_loadable m m' w w' suffix printed H)
    as [Hn [-> [Hf [_ [content [Hc Hl]]]]]].
  split; [exact Hn|]. split; [reflexivity|]. split; [exact Hf|].
  exists content. eexists. eexists. split; [exact Hc|].
  split; [exact Hl|]. now repeat split.
Qed.

(** English is the only questions file; the user first types a word,
    then a number that is not listed, then 2. *)
Lemma chosen_language_loads_witness :
  exists m' w' printed,
    get_language_choice init
      (World (Examples.one_file (lit "600Q_ingles.txt")
                (Examples.text_of [lit "1. A?"]))
         [Line (lit "two"); Line (lit "1"); Line (lit " 2 ")] [])
    = (Ret (lit "ingles"), m', w', printed)
    /\ current_language m' = Some (lit "ingles")
    /\ exists m2 w2, load_questions m' (lit "ingles") w' = (true, m2, w2).
Proof.
  destruct (get_language_choice init
              (World (Examples.one_file (lit "600Q_ingles.txt")
                        (Examples.text_of [lit "1. A?"]))
                 [Line (lit "two"); Line (lit "1"); Line (lit " 2 ")] []))
    as [[[r m'] w'] printed] eqn:E.
  assert (R : r = Ret (lit "ingles"))
    by (vm_compute in E; now injection E as <- _ _ _).
  subst r.
  destruct (chosen_language_loads init m' _ w' _ printed E)
    as [_ [Hl [_ [content [m2 [w2 [_ [Hload _]]]]]]]].
  exists m', w', printed. split; [reflexivity|]. split; [exact Hl|].
  now exists m2, w2.
Defined.

(** X8.  The numbers of the menu are the positions in the table, not
    a count of the lines shown: the entry at position [n] is listed,
    under the number [n], exactly when its questions file exists;
    typing that number then selects it, and otherwise the choice is
    turned down and the menu shown again. *)
Theorem listed_numbers_are_the_choices
    (m : manager) (w : world) (n : nat) (name suffix : str)
    (rest : list console) :
  (1 <= n)%nat ->
  nth_error AVAILABLE_LANGUAGES (n - 1) = Some (name, suffix) ->
  stdin w = Line (str_of_int (Z.of_nat n)) :: rest ->
  (In (LanguageOption n (title name)) (display_available_languages w)
   <-> questions_file_exists w suffix = true)
  /\ (questions_file_exists w suffix = true ->
      get_language_choice m w
      = (Ret suffix, set_current_language suffix m, with_stdin rest w,
         display_available_languages w
         ++ [ChoicePrompt; LanguageSelected (title name)]))
  /\ (questions_file_exists w suffix = false ->
      get_language_choice m w
      = choice_loop m rest (with_stdin rest w)
          (display_available_languages w
           ++ [ChoicePrompt; LanguageNotAvailable name])).
Proof.
  intros Hn Hnth Hin.
  assert (Hlen : (n - 1 < List.length AVAILABLE_LANGUAGES)%nat).
  { apply nth_error_Some. rewrite Hnth. discriminate. }
  assert (Hget : getitem AVAILABLE_LANGUAGES (Z.of_nat n - 1)
                 = Some (name, suffix)).
  { rewrite getitem_nonneg by lia.
    destruct (Z.ltb_spec (Z.of_nat n - 1)
                (Z.of_nat (List.length AVAILABLE_LANGUAGES))); [|lia].
    replace (Z.to_nat (Z.of_nat n - 1)) with (n - 1)%nat by lia.
    exact Hnth. }
  assert (Hturn : get_language_choice m w
                  = if questions_file_exists w suffix
                    then (Ret suffix, set_current_language suffix m,
                          with_stdin rest w,
                          display_available_languages w
                          ++ [ChoicePrompt; LanguageSelected (title name)])
                    else choice_loop m rest (with_stdin rest w)
                           (display_available_languages w
                            ++ [ChoicePrompt; LanguageNotAvailable name])).
  { unfold get_language_choice. rewrite Hin. cbn [choice_loop].
    rewrite strip_str_of_int, int_str_of_int.
    destruct (Z.leb_spec 1 (Z.of_nat n)); [|lia].
    destruct (Z.leb_spec (Z.of_nat n)
                (Z.of_nat (List.length AVAILABLE_LANGUAGES))); [|lia].
    cbn [andb]. rewrite Hget.
    change (questions_file_exists (with_stdin rest w) suffix)
      with (questions_file_exists w suffix).
    cbn [app]. rewrite <- !app_assoc. reflexivity. }
  split; [|split; intros Hex; rewrite Hturn, Hex; reflexivity].
  unfold display_available_languages. split.
  - intros Hi. apply in_app_or in Hi as [[F|[]]|Hi]; [discriminate|].
    apply in_app_or in Hi as [Hi|[F|[]]]; [|discriminate].
    apply in_flat_map in Hi as [[idx [name' suffix']] [He Hi]].
    apply enumerate_In in He as [_ He].
    destruct (questions_file_exists w suffix') eqn:Hex; [|contradiction].
    destruct Hi as [E|[]]. injection E as -> _.
    rewrite Hnth in He. injection He as _ <-. exact Hex.
  - intros Hex. apply in_or_app. right. apply in_or_app. left.
    apply in_flat_map. exists (n, (name, suffix)). split.
    + apply enumerate_In. split; [exact Hn | exact Hnth].
    + rewrite Hex. now left.
Qed.

(** English is the only questions file: number 2 is listed and
    selects it. *)
Lemma listed_numbers_are_the_choices_witness :
  In (LanguageOption 2 (lit "English"))
     (display_available_languages
        (World (Examples.one_file (lit "600Q_ingles.txt")
                  (Examples.text_of [lit "1. A?"]))
           [Line (lit "2")] []))
  /\ fst (fst (fst (get_language_choice init
                      (World (Examples.one_file (lit "600Q_ingles.txt")
                                (Examples.text_of [lit "1. A?"]))
                         [Line (lit "2")] []))))
     = Ret (lit "ingles").
Proof.
  destruct (listed_numbers_are_the_choices init
              (World (Examples.one_file (lit "600Q_ingles.txt")
                        (Examples.text_of [lit "1. A?"]))
                 [Line (lit "2")] [])
              2 (lit "english") (lit "ingles") []
              ltac:(lia) eq_refl eq_refl) as [[_ Hl] [Hs _]].
  split.
  - apply Hl. reflexivity.
  - rewrite (Hs eq_refl). reflexivity.
Defined.

(** ** The entry point *)

Lemma engine_not_failure (events : list event) :
  existsb is_failure (map Engine events) = false.
Proof. induction events as [|e es IH]; [reflexivity | exact IH]. Qed.

Lemma menu_not_failure (printed : list menu_event) :
  Forall menu_message printed ->
  existsb is_failure (map Menu printed) = false.
Proof.
  induction 1 as [|e es He _ IH]; [reflexivity|].
  cbn [map existsb]. unfold menu_message in He. now rewrite He, IH.
Qed.

(** X9.  With a file system that does not fail and a console that
    delivers lines or interrupts, the process never ends with status 1
    and never prints a failure message: the language chosen can be
    loaded, the questions are never indexed out of range, and an
    interrupt outside a question ends the process with status 0 after
    the farewell. *)
Theorem main_never_fails
    (fs : str -> option str) (pending : list console)
    (e : ending) (w : world) (out : list output) :
  main fs pending = (e, w, out) ->
  (e = ExitCode 0 \/ e = Waiting)
  /\ existsb is_failure out = false.
Proof.
  intros H. unfold main in H.
  destruct (get_language_choice init (World fs pending []))
    as [[[rc mc] wc] printed] eqn:Hc.
  pose proof Hc as Hpost. unfold get_language_choice in Hpost.
  apply (choice_loop_post _ _ _ [] _ _ _ _ (Forall_nil _)) in Hpost.
  destruct Hpost as [Hf [_ [Hm Hr]]].
  pose proof (menu_not_failure printed Hm) as Mn.
  destruct rc as [suffix|x|].
  - destruct (choice_gives_loadable init mc _ wc suffix printed Hc)
      as [_ [_ [_ [_ [content [_ Hl]]]]]].
    rewrite Hl in H.
    set (m2 := Manager _ _ _ _) in H. set (w2 := print _ wc) in H.
    destruct (start_questionnaire_session m2 w2) as [[rs ms] ws] eqn:Hs.
    destruct rs as [u|x|].
    + injection H as <- <- <-. split; [now left|].
      cbn [app existsb is_failure orb].
      now rewrite existsb_app, Mn, engine_not_failure.
    + destruct (SummaryFacts.session_summary m2 ms w2 ws (Raise x) Hs)
        as [recs [_ [_ [_ [_ [_ Hx]]]]]].
      destruct (Hx x eq_refl) as [-> _].
      injection H as <- <- <-. split; [now left|].
      cbn [app existsb is_failure orb].
      rewrite existsb_app, Mn, existsb_app, engine_not_failure.
      reflexivity.
    + injection H as <- <- <-. split; [now right|].
      cbn [app existsb is_failure orb].
      now rewrite existsb_app, Mn, engine_not_failure.
  - destruct Hr as [-> _]. injection H as <- <- <-. split; [now left|].
    cbn [app existsb is_failure orb]. rewrite existsb_app, Mn. reflexivity.
  - injection H as <- <- <-. split; [now right|].
    cbn [app existsb is_failure orb]. now rewrite Mn.
Qed.

(** English chosen at the second attempt, one answer, then the
    interrupt at the second question. *)
Lemma main_never_fails_witness :
  exists w out,
    main (Examples.one_file (lit "600Q_ingles.txt")
            (Examples.text_of [lit "1. A?"; lit "2. B?"]))
      [Line (lit "9"); Line (lit "2"); Line []; Line (lit "a"); CtrlC]
    = (ExitCode 0, w, out)
    /\ existsb is_failure out = false.
Proof.
  destruct (main (Examples.one_file (lit "600Q_ingles.txt")
                    (Examples.text_of [lit "1. A?"; lit "2. B?"]))
              [Line (lit "9"); Line (lit "2"); Line []; Line (lit "a"); CtrlC])
    as [[e w] out] eqn:E.
  destruct (main_never_fails _ _ e w out E) as [_ Hn].
  exists w, out. split; [|exact Hn].
  vm_compute in E. injection E as <- _ _. reflexivity.
Defined.

(** X10.  The process changes one file at most: the log that carries
    the suffix of the language chosen, a language of the table whose
    questions file exists, and that log only grows at its end.  The
    questions files are never written. *)
Theorem main_changes_only_the_chosen_log
    (fs : str -> option str) (pending : list console)
    (e : ending) (w : world) (out : list output) :
  main fs pending = (e, w, out) ->
  (forall p, files w p = fs p)
  \/ exists name suffix added,
       In (name, suffix) AVAILABLE_LANGUAGES
       /\ fs (questions_name suffix) <> None
       /\ (forall p, p <> log_name suffix -> files w p = fs p)
       /\ files w (log_name suffix)
          = Some (match fs (log_name suffix) with
                  | Some old => old
                  | None => []
                  end ++ added).
Proof.
  intros H. unfold main in H.
  destruct (get_language_choice init (World fs pending []))
    as [[[rc mc] wc] printed] eqn:Hc.
  pose proof Hc as Hpost. unfold get_language_choice in Hpost.
  apply (choice_loop_post _ _ _ [] _ _ _ _ (Forall_nil _)) in Hpost.
  destruct Hpost as [Hf [_ [_ Hr]]]. cbn [files] in Hf.
  destruct rc as [suffix|x|].
  2: { left. intros p.
       destruct x; injection H as _ <- _; now rewrite Hf. }
  2: { left. intros p. injection H as _ <- _. now rewrite Hf. }
  destruct (choice_gives_loadable init mc _ wc suffix printed Hc)
    as [[name Hn] [_ [_ [_ [content [Hq Hl]]]]]].
  cbn [files] in Hq. rewrite Hl in H.
  set (m2 := Manager _ _ _ _) in H. set (w2 := print _ wc) in H.
  assert (F2 : files w2 = fs) by exact Hf.
  assert (Hp : answers_path m2 = log_name suffix) by reflexivity.
  destruct (start_questionnaire_session m2 w2) as [[rs ms] ws] eqn:Hs.
  destruct (SummaryFacts.session_summary m2 ms w2 ws rs Hs)
    as [recs [_ [_ [_ [Hlog [Hother _]]]]]].
  unfold log_after, log_text in Hlog. rewrite Hp, F2 in Hlog.
  assert (Hother' : forall p, p <> log_name suffix -> files ws p = fs p).
  { intros p Hne. rewrite <- F2. apply Hother. now rewrite Hp. }
  assert (W : files w = files ws).
  { destruct rs as [u|x|]; [|destruct x|]; now injection H as _ <- _. }
  rewrite W.
  destruct recs as [|r0 recs].
  - left. intros p.
    destruct (list_eq_dec N.eq_dec p (log_name suffix)) as [->|Hne].
    + exact Hlog.
    + now apply Hother'.
  - right. exists name, suffix, (List.concat (map render (r0 :: recs))).
    split; [exact Hn|]. split; [rewrite Hq; discriminate|].
    split; [exact Hother' | exact Hlog].
Qed.

(** The same run: the log of English holds the one answer, the
    questions file is as it was. *)
Lemma main_changes_only_the_chosen_log_witness :
  exists e w out,
    main (Examples.one_file (lit "600Q_ingles.txt")
            (Examples.text_of [lit "1. A?"; lit "2. B?"]))
      [Line (lit "9"); Line (lit "2"); Line []; Line (lit "a"); CtrlC]
    = (e, w, out)
    /\ files w (lit "600A_ingles.txt")
       = Some (Examples.text_of [lit "0;1. A?;a"])
    /\ files w (lit "600Q_ingles.txt")
       = Some (Examples.text_of [lit "1. A?"; lit "2. B?"]).
Proof.
  destruct (main (Examples.one_file (lit "600Q_ingles.txt")
                    (Examples.text_of [lit "1. A?"; lit "2. B?"]))
              [Line (lit "9"); Line (lit "2"); Line []; Line (lit "a"); CtrlC])
    as [[e w] out] eqn:E.
  destruct (main_changes_only_the_chosen_log _ _ e w out E)
    as [Same|[name [suffix [added [_ [_ [Hother _]]]]]]];
    exists e, w, out; (split; [reflexivity|]);
    vm_compute in E; injection E as _ <- _; split; reflexivity.
Defined.

Module NewlineFacts.

Import Text Questionnaire Reading Newlines.
Import TextFacts LogFacts LineFacts LoadFacts RecordFacts.
Local Open Scope N_scope.

Lemma translate_newlines_split (a b : str) :
  last a 0 <> 13 ->
  translate_newlines (a ++ b) = translate_newlines a ++ translate_newlines b.
Proof.
  assert (G : forall n a, (List.length a <= n)%nat -> last a 0 <> 13 ->
              translate_newlines (a ++ b)
              = translate_newlines a ++ translate_newlines b).
  { induction n as [|n IH]; intros [|c t] Hl Hlast; cbn [List.length] in Hl;
      try reflexivity; try lia.
    cbn [app translate_newlines].
    destruct (N.eqb_spec c 13) as [->|Hc].
    - destruct t as [|d t'].
      + exfalso. now apply Hlast.
      + cbn [app]. cbn [List.length] in Hl.
        assert (Hlast' : last (d :: t') 0 <> 13) by exact Hlast.
        destruct (N.eqb d 10).
        * apply (IH (d :: t')); [now apply le_S_n | exact Hlast'].
        * change (d :: t' ++ b) with ((d :: t') ++ b).
          rewrite (IH (d :: t')); [reflexivity | now apply le_S_n
                                   | exact Hlast'].
    - rewrite IH; [reflexivity | |].
      + now apply le_S_n.
      + destruct t; [cbn in *; congruence | exact Hlast]. }
  intros Hlast. apply (G (List.length a)); [apply Nat.le_refl | exact Hlast].
Qed.

Lemma last_no_cr (l : str) : ~ In 13 l -> last l 0 <> 13.
Proof.
  intros H. destruct l as [|c t]; [discriminate|].
  destruct (exists_last (l := c :: t)) as [p [x E]]; [discriminate|].
  rewrite E, last_last. intros ->. apply H. rewrite E.
  apply in_or_app. right. now left.
Qed.

Lemma translate_line (term l : str) :
  line_terminator term -> ~ In 13 l ->
  translate_newlines (l ++ term) = l ++ [10].
Proof.
  intros Ht Hl.
  rewrite (translate_newlines_split l term (last_no_cr l Hl)).
  rewrite (translate_newlines_id l Hl).
  destruct Ht as [->|[->| ->]]; reflexivity.
Qed.

Lemma hd_terminated (term : str) (ls : list str) :
  line_terminator term -> Forall line_free ls ->
  term = [13] -> hd 0 (terminated term ls) <> 10.
Proof.
  intros _ Hf ->. destruct Hf as [|l ls [Hl _] _]; [discriminate|].
  unfold terminated. cbn [map List.concat].
  destruct l as [|c t]; cbn [app hd]; [discriminate|].
  intros ->. apply Hl. now left.
Qed.

(** Reading a text whose lines all end the same way gives the lines,
    each with LF at its end. *)
Lemma readlines_terminated (term : str) (ls : list str) :
  line_terminator term -> Forall line_free ls ->
  readlines (terminated term ls) = map (fun l => l ++ [10]) ls.
Proof.
  intros Ht Hf. unfold readlines.
  assert (T : translate_newlines (terminated term ls) = terminated [10] ls).
  { induction Hf as [|l ls [Hlf Hcr] Hrest IH]; [reflexivity|].
    unfold terminated in *. cbn [map List.concat].
    assert (E : translate_newlines ((l ++ term) ++
                   List.concat (map (fun l0 => l0 ++ term) ls))
                = translate_newlines (l ++ term)
                  ++ translate_newlines
                       (List.concat (map (fun l0 => l0 ++ term) ls))).
    { destruct Ht as [->|[->| ->]].
      - apply translate_newlines_split. rewrite last_last. discriminate.
      - apply translate_newlines_split.
        change (l ++ [13; 10]) with (l ++ [13] ++ [10]).
        rewrite app_assoc, last_last. discriminate.
      - apply translate_newlines_app.
        apply (hd_terminated [13] ls); [now right; right | exact Hrest
                                        | reflexivity]. }
    rewrite E, IH, (translate_line term l Ht Hcr). reflexivity. }
  rewrite T. unfold terminated. apply lines_of_concat.
  eapply Forall_impl; [|exact Hf]. now intros l [Hl _].
Qed.

Lemma lstrip_by_prefix (drop : char -> bool) (p s : str) :
  forallb drop p = true -> lstrip_by drop (p ++ s) = lstrip_by drop s.
Proof.
  induction p as [|c p IH]; intros H; [reflexivity|].
  cbn [forallb] in H. apply andb_true_iff in H as [Hc Hp].
  cbn [app lstrip_by]. rewrite Hc. now apply IH.
Qed.

Lemma blank_lf (l : str) : blank (l ++ [10]) = blank l.
Proof. unfold blank. rewrite forallb_app. cbn. now rewrite andb_true_r. Qed.

Lemma strip_lf (l : str) : blank l = false -> strip (l ++ [10]) = strip l.
Proof.
  intros Hb. unfold strip, strip_by.
  destruct (lstrip_by_split isspace l) as [p [E Hp]].
  destruct (lstrip_by isspace l) as [|c t] eqn:El.
  - exfalso. apply (lstrip_by_all isspace) in El. unfold blank in Hb.
    congruence.
  - assert (Hc : isspace c = false)
      by (apply (lstrip_by_head isspace l c t El)).
    rewrite E at 1. rewrite <- app_assoc.
    rewrite (lstrip_by_prefix isspace p _ Hp).
    cbn [app]. rewrite (lstrip_by_keep isspace c _ Hc).
    change (c :: t ++ [10]) with ((c :: t) ++ [10]).
    now rewrite RecordFacts.rstrip_by_drop_last.
Qed.

Lemma loaded_from_lines (ls : list str) :
  map strip (filter (fun line => negb (blank line))
               (map (fun l => l ++ [10]) ls))
  = map strip (filter (fun line => negb (blank line)) ls).
Proof.
  induction ls as [|l ls IH]; [reflexivity|].
  cbn [map filter]. rewrite blank_lf.
  destruct (blank l) eqn:Hb; cbn [negb map]; [exact IH|].
  f_equal; [now apply strip_lf | exact IH].
Qed.

End NewlineFacts.

Import Newlines NewlineFacts.

(** ** Line endings of a questions file *)

(** X11.  A questions file loads the same questions whether its lines
    end in LF, in CR LF or in CR: the non-blank lines, trimmed, in
    their order. *)
Theorem load_questions_any_line_ending
    (m : manager) (suffix term : str) (ls : list str) (w : world) :
  line_terminator term ->
  Forall line_free ls ->
  files w (lit "600Q_" ++ suffix ++ lit ".txt") = Some (terminated term ls) ->
  exists m' w',
    load_questions m suffix w = (true, m', w')
    /\ questions m'
       = map strip (filter (fun line => negb (blank line)) ls).
Proof.
  intros Ht Hf Hc.
  rewrite (LoadFacts.load_questions_found m suffix _ w Hc).
  eexists. eexists. split; [reflexivity|]. cbn [questions].
  rewrite (readlines_terminated term ls Ht Hf). apply loaded_from_lines.
Qed.

(** A file written with CR LF line ends, one line blank. *)
Lemma load_questions_any_line_ending_witness :
  exists m' w',
    load_questions init (lit "ingles")
      (World (Examples.one_file (lit "600Q_ingles.txt")
                (terminated [13%N; 10%N] [lit "1. A?"; []; lit " 2. B?"]))
         [] [])
    = (true, m', w')
    /\ questions m' = [lit "1. A?"; lit "2. B?"].
Proof.
  destruct (load_questions_any_line_ending init (lit "ingles") [13%N; 10%N]
              [lit "1. A?"; []; lit " 2. B?"]
              (World (Examples.one_file (lit "600Q_ingles.txt")
                        (terminated [13%N; 10%N]
                           [lit "1. A?"; []; lit " 2. B?"]))
                 [] []))
    as [m' [w' [E Hq]]].
  - right. now left.
  - repeat constructor; vm_compute; intuition discriminate.
  - reflexivity.
  - exists m', w'. split; [exact E|]. rewrite Hq. reflexivity.
Defined.
